(** * The Envoy external-authorization plugin: decision pipeline

    A shallow embedding of [internal/internal.go]: configuration validation
    ([Validate], [stringPathToDataRef], [stringPathToRef]), the per-call
    pipeline ([check], its [stop] closure, [log], the v3 and v2 [Check]
    entry points) and the v3-to-v2 response translation ([v2Response],
    [v2Headers], [v2Status]).

    Layout: Part I holds the definitions, Part II the theorems. *)

From Stdlib Require Import String Ascii List ZArith Lia Bool Arith.
From Stdlib Require Import DecimalString DecimalPos.
Import ListNotations.

Local Open Scope string_scope.
Local Open Scope Z_scope.

Set Implicit Arguments.
Set Warnings "-register-all".

(* ================================================================== *)
(** * Part I. Definitions *)
(* ================================================================== *)

(** ** Go values used throughout *)

(** A Go [error] value is represented by the text its [Error()] method
    returns; a nil error is [None]. *)
Definition error := string.

(** [Result A] is the outcome of a Go call returning [(A, error)] whose first
    component is only used when the error is nil. *)
Definition Result (A : Type) : Type := (A + error)%type.

(** [errors.Wrap(err, msg)] of github.com/pkg/errors: the wrapped error's text
    is the message, a colon and a blank, then the cause's text. *)
Definition Wrap (err : error) (msg : string) : error := msg ++ ": " ++ err.

(** [interface{}] values that hold JSON-like data (the policy input and the
    policy decision).  [AMap] is Go's [map[string]interface{}]. *)
Inductive Any : Type :=
| ANil
| ABool (b : bool)
| ANumber (n : string)
| AString (s : string)
| ASlice (xs : list Any)
| AMap (kvs : list (string * Any)).

(** ** Go library functions used by the path resolution *)

Module strings.

(** [strings.Split(s, sep)] for a one-byte separator: the substrings between
    the separators, in order; [s] itself when it holds no separator. *)
Fixpoint Split (s : string) (sep : ascii) : list string :=
  match s with
  | EmptyString => [EmptyString]
  | String c s' =>
      if Ascii.eqb c sep then EmptyString :: Split s' sep
      else match Split s' sep with
           | x :: xs => String c x :: xs
           | [] => [String c EmptyString]
           end
  end.

End strings.

Module strconv.

(** Bounds of Go's [int] on a 64-bit platform. *)
Definition minInt : Z := - 2 ^ 63.
Definition maxInt : Z := 2 ^ 63 - 1.

Definition isDigit (c : ascii) : bool :=
  ((48 <=? nat_of_ascii c) && (nat_of_ascii c <=? 57))%nat.

Definition digitVal (c : ascii) : Z := Z.of_nat (nat_of_ascii c) - 48.

(** The value of a run of decimal digits, most significant first;
    [None] on any other byte. *)
Fixpoint digits (acc : Z) (s : string) : option Z :=
  match s with
  | EmptyString => Some acc
  | String c s' =>
      if isDigit c then digits (acc * 10 + digitVal c) s' else None
  end.

(** [strconv.Atoi]: an optional sign, then at least one decimal digit and
    nothing else (base 10 admits no underscore); the value must fit [int].
    [None] stands for a non-nil error (syntax or range). *)
Definition Atoi (s : string) : option Z :=
  match s with
  | EmptyString => None
  | String c rest =>
      let neg := Ascii.eqb c "-" in
      let body := if Ascii.eqb c "-" || Ascii.eqb c "+" then rest else s in
      match body with
      | EmptyString => None
      | _ =>
          match digits 0 body with
          | None => None
          | Some n =>
              let v := if neg then - n else n in
              if (minInt <=? v) && (v <=? maxInt) then Some v else None
          end
      end
  end.

(** [strconv.Itoa]. *)
Definition Itoa (i : Z) : string := NilZero.string_of_int (Z.to_int i).

End strconv.

(** ** The policy library's references (package [ast] of OPA) *)

Module ast.

(** The terms a reference is made of here: the root variable, string keys
    and integer indices.  [IntNumberTerm i] holds the number whose text is
    [strconv.Itoa i]. *)
Inductive Term : Type :=
| VarTerm (name : string)
| StringTerm (s : string)
| IntNumberTerm (i : Z).

Definition Ref := list Term.

(** [ast.DefaultRootDocument]: the variable [data]. *)
Definition DefaultRootDocument : Term := VarTerm "data".

Definition isAlpha (c : ascii) : bool :=
  let n := nat_of_ascii c in
  (((65 <=? n) && (n <=? 90)) || ((97 <=? n) && (n <=? 122)))%nat.

Definition isWordByte (c : ascii) : bool :=
  isAlpha c || strconv.isDigit c || Ascii.eqb c "_".

Fixpoint allBytes (p : ascii -> bool) (s : string) : bool :=
  match s with
  | EmptyString => true
  | String c s' => p c && allBytes p s'
  end.

(** The library's [varRegexp]: a letter or underscore, then letters, digits
    and underscores. *)
Definition varRegexp (s : string) : bool :=
  match s with
  | EmptyString => false
  | String c s' => (isAlpha c || Ascii.eqb c "_") && allBytes isWordByte s'
  end.

(** The library's keyword table, consulted by [IsKeyword]. *)
Definition Keywords : list string :=
  ["not"; "package"; "import"; "as"; "default"; "else"; "with"; "null";
   "true"; "false"; "some"].

Definition IsKeyword (s : string) : bool :=
  existsb (String.eqb s) Keywords.

End ast.

Section RefString.

(** How the library prints a string that is not a plain identifier (a
    quoted JSON string); the path resolution never inspects it. *)
Variable quote : string -> string.

(** [Term.String()]. *)
Definition termString (t : ast.Term) : string :=
  match t with
  | ast.VarTerm name => name
  | ast.StringTerm s => quote s
  | ast.IntNumberTerm i => strconv.Itoa i
  end.

(** One path element of [Ref.String()]: a string key that is an identifier
    and no keyword is printed as [.key], anything else as [[term]]. *)
Definition refElemString (t : ast.Term) : string :=
  match t with
  | ast.StringTerm s =>
      if ast.varRegexp s && negb (ast.IsKeyword s)
      then "." ++ s
      else "[" ++ termString t ++ "]"
  | _ => "[" ++ termString t ++ "]"
  end.

(** [Ref.String()]: the head term, then each path element. *)
Definition refString (r : ast.Ref) : string :=
  match r with
  | [] => ""
  | hd :: path => termString hd ++ String.concat "" (map refElemString path)
  end.

End RefString.

(** ** Entry-point path resolution *)

(** The body of the loop of [stringPathToRef]: one segment [x] of the split
    path, appended to the reference [r] built so far. *)
Definition stringPathToRef_step (r : ast.Ref) (x : string) : ast.Ref :=
  if String.eqb x "" then r
  else match strconv.Atoi x with
       | None => (r ++ [ast.StringTerm x])%list
       | Some i => (r ++ [ast.IntNumberTerm i])%list
       end.

(** [stringPathToRef]: the loop is a left fold over the segments, starting
    from the nil reference. *)
Definition stringPathToRef (s : string) : ast.Ref :=
  if (String.length s =? 0)%nat then []
  else fold_left stringPathToRef_step (strings.Split s "/") [].

(** [stringPathToDataRef]. *)
Definition stringPathToDataRef (s : string) : ast.Ref :=
  let result := [ast.DefaultRootDocument] in
  (result ++ stringPathToRef s)%list.


(** What a non-empty segment of the path becomes: an integer index when
    [strconv.Atoi] accepts it, a string key otherwise. *)
Definition segmentTerm (x : string) : ast.Term :=
  match strconv.Atoi x with
  | Some i => ast.IntNumberTerm i
  | None => ast.StringTerm x
  end.

Definition nonEmpty (x : string) : bool := negb (String.eqb x "").

(** ** Configuration *)

(** The double-quote byte, for messages that quote a field name. *)
Definition dquote : string := String (ascii_of_nat 34) EmptyString.

Definition defaultAddr : string := ":9191".
Definition defaultPath : string := "envoy/authz/allow".
Definition defaultDryRun : bool := false.
Definition defaultEnableReflection : bool := false.
Definition defaultSkipRequestBodyParse : bool := false.
Definition defaultEnablePerformanceMetrics : bool := false.
Definition defaultGRPCServerMaxReceiveMessageSize : Z := 1024 * 1024 * 4.
Definition defaultGRPCServerMaxSendMessageSize : Z := 2 ^ 31 - 1.

Section Configuration.

(** The parsed query ([ast.Body]) and the descriptor registry
    ([protoregistry.Files]) are opaque to this package. *)
Variables Body Files : Type.

(** [Config].  A nil [parsedQuery] or [protoSet] is [None]. *)
Record Config : Type := {
  Addr : string;
  Query : string;
  Path : string;
  DryRun : bool;
  EnableReflection : bool;
  parsedQuery : option Body;
  ProtoDescriptor : string;
  protoSet : option Files;
  GRPCMaxRecvMsgSize : Z;
  GRPCMaxSendMsgSize : Z;
  SkipRequestBodyParse : bool;
  EnablePerformanceMetrics : bool
}.

Definition setPath (cfg : Config) (p : string) : Config :=
  {| Addr := Addr cfg; Query := Query cfg; Path := p; DryRun := DryRun cfg;
     EnableReflection := EnableReflection cfg; parsedQuery := parsedQuery cfg;
     ProtoDescriptor := ProtoDescriptor cfg; protoSet := protoSet cfg;
     GRPCMaxRecvMsgSize := GRPCMaxRecvMsgSize cfg;
     GRPCMaxSendMsgSize := GRPCMaxSendMsgSize cfg;
     SkipRequestBodyParse := SkipRequestBodyParse cfg;
     EnablePerformanceMetrics := EnablePerformanceMetrics cfg |}.

Definition setParsedQuery (cfg : Config) (q : Body) : Config :=
  {| Addr := Addr cfg; Query := Query cfg; Path := Path cfg;
     DryRun := DryRun cfg; EnableReflection := EnableReflection cfg;
     parsedQuery := Some q; ProtoDescriptor := ProtoDescriptor cfg;
     protoSet := protoSet cfg; GRPCMaxRecvMsgSize := GRPCMaxRecvMsgSize cfg;
     GRPCMaxSendMsgSize := GRPCMaxSendMsgSize cfg;
     SkipRequestBodyParse := SkipRequestBodyParse cfg;
     EnablePerformanceMetrics := EnablePerformanceMetrics cfg |}.

Definition setProtoSet (cfg : Config) (ps : Files) : Config :=
  {| Addr := Addr cfg; Query := Query cfg; Path := Path cfg;
     DryRun := DryRun cfg; EnableReflection := EnableReflection cfg;
     parsedQuery := parsedQuery cfg; ProtoDescriptor := ProtoDescriptor cfg;
     protoSet := Some ps; GRPCMaxRecvMsgSize := GRPCMaxRecvMsgSize cfg;
     GRPCMaxSendMsgSize := GRPCMaxSendMsgSize cfg;
     SkipRequestBodyParse := SkipRequestBodyParse cfg;
     EnablePerformanceMetrics := EnablePerformanceMetrics cfg |}.

Definition setDryRun (cfg : Config) (b : bool) : Config :=
  {| Addr := Addr cfg; Query := Query cfg; Path := Path cfg;
     DryRun := b; EnableReflection := EnableReflection cfg;
     parsedQuery := parsedQuery cfg; ProtoDescriptor := ProtoDescriptor cfg;
     protoSet := protoSet cfg; GRPCMaxRecvMsgSize := GRPCMaxRecvMsgSize cfg;
     GRPCMaxSendMsgSize := GRPCMaxSendMsgSize cfg;
     SkipRequestBodyParse := SkipRequestBodyParse cfg;
     EnablePerformanceMetrics := EnablePerformanceMetrics cfg |}.

(** The configuration [Validate] starts from, before the user's values are
    laid over it. *)
Definition defaultConfig : Config :=
  {| Addr := defaultAddr; Query := ""; Path := "";
     DryRun := defaultDryRun; EnableReflection := defaultEnableReflection;
     parsedQuery := None; ProtoDescriptor := ""; protoSet := None;
     GRPCMaxRecvMsgSize := defaultGRPCServerMaxReceiveMessageSize;
     GRPCMaxSendMsgSize := defaultGRPCServerMaxSendMessageSize;
     SkipRequestBodyParse := defaultSkipRequestBodyParse;
     EnablePerformanceMetrics := defaultEnablePerformanceMetrics |}.

(** Collaborators of [Validate], all outside this package:
    [util.Unmarshal(bs, &cfg)] lays the decoded bytes over [cfg];
    [ast.ParseBody] parses a query; [internal_util.ReadProtoSet] loads a
    descriptor set; [quote] prints a string term. *)
Variable Unmarshal : string -> Config -> Result Config.
Variable ParseBody : string -> Result Body.
Variable ReadProtoSet : string -> Result Files.
Variable quote : string -> string.

Definition invalidConfig : error :=
  "invalid config: specify a value for only the " ++ dquote ++ "path"
  ++ dquote ++ " field".

(** The part of [Validate] after the path/query exclusion check: resolve the
    entry point, parse it, load the descriptor set. *)
Definition resolveEntryPoint (cfg : Config) : Result Config :=
  let '(cfg, parsed) :=
    if negb (String.eqb (Query cfg) "") then
      (cfg, ParseBody (Query cfg))
    else
      let cfg := if String.eqb (Path cfg) "" then setPath cfg defaultPath
                 else cfg in
      let path := stringPathToDataRef (Path cfg) in
      (cfg, ParseBody (refString quote path)) in
  match parsed with
  | inr err => inr err
  | inl parsedQuery =>
      let cfg := setParsedQuery cfg parsedQuery in
      if negb (String.eqb (ProtoDescriptor cfg) "") then
        match ReadProtoSet (ProtoDescriptor cfg) with
        | inr err => inr err
        | inl ps => inl (setProtoSet cfg ps)
        end
      else inl cfg
  end.

(** [Validate]. *)
Definition Validate (bs : string) : Result Config :=
  match Unmarshal bs defaultConfig with
  | inr err => inr err
  | inl cfg =>
      if negb (String.eqb (Path cfg) "") && negb (String.eqb (Query cfg) "")
      then inr invalidConfig
      else resolveEntryPoint cfg
  end.

End Configuration.

(** ** Wire messages *)

Module code.
Definition Code_OK : Z := 0.
Definition Code_UNKNOWN : Z := 2.
Definition Code_PERMISSION_DENIED : Z := 7.
End code.

Module rpc_status.
(** [rpc_status.Status]; its [Details] are never set here. *)
Record Status : Type := { Code : Z; Message : string }.
End rpc_status.

(** [structpb.Struct], the dynamic metadata: a JSON object. *)
Definition Struct : Type := list (string * Any).

(** A message field or slice element of pointer type is an [option]: [None]
    is the nil pointer.  The generated getters ([GetHeader], [GetHeaders])
    answer the zero value on a nil receiver; a direct field access on nil
    panics. *)
Module v3.

Module HeaderValue.
Record t : Type := { Key : string; Value : string }.
End HeaderValue.

Module HeaderValueOption.
Record t : Type := { Header : option HeaderValue.t; Append : option bool }.
Definition GetHeader (x : option t) : option HeaderValue.t :=
  match x with
  | Some hv => Header hv
  | None => None
  end.
End HeaderValueOption.

Module HttpStatus.
(** [Code] is the [StatusCode] enumeration, an int32. *)
Record t : Type := { Code : Z }.
End HttpStatus.

Module OkHttpResponse.
Record t : Type := {
  Headers : list (option HeaderValueOption.t);
  HeadersToRemove : list string;
  ResponseHeadersToAdd : list (option HeaderValueOption.t)
}.
Definition GetHeaders (x : option t) : list (option HeaderValueOption.t) :=
  match x with
  | Some r => Headers r
  | None => []
  end.
(** The zero message, [&OkHttpResponse{}]. *)
Definition zero : t :=
  {| Headers := []; HeadersToRemove := []; ResponseHeadersToAdd := [] |}.
End OkHttpResponse.

Module DeniedHttpResponse.
Record t : Type := {
  Status : option HttpStatus.t;
  Headers : list (option HeaderValueOption.t);
  Body : string
}.
Definition GetHeaders (x : option t) : list (option HeaderValueOption.t) :=
  match x with
  | Some r => Headers r
  | None => []
  end.
End DeniedHttpResponse.

(** The [HttpResponse] one-of of a check response. *)
Inductive isCheckResponse_HttpResponse : Type :=
| CheckResponse_OkResponse (OkResponse : option OkHttpResponse.t)
| CheckResponse_DeniedResponse (DeniedResponse : option DeniedHttpResponse.t).

Module CheckResponse.
Record t : Type := {
  Status : option rpc_status.Status;
  HttpResponse : option isCheckResponse_HttpResponse;
  DynamicMetadata : option Struct
}.
End CheckResponse.

End v3.

Module v2.

Module HeaderValue.
Record t : Type := { Key : string; Value : string }.
End HeaderValue.

Module HeaderValueOption.
Record t : Type := { Header : option HeaderValue.t; Append : option bool }.
End HeaderValueOption.

Module HttpStatus.
Record t : Type := { Code : Z }.
End HttpStatus.

Module OkHttpResponse.
Record t : Type := { Headers : list (option HeaderValueOption.t) }.
End OkHttpResponse.

Module DeniedHttpResponse.
Record t : Type := {
  Status : option HttpStatus.t;
  Headers : list (option HeaderValueOption.t);
  Body : string
}.
End DeniedHttpResponse.

Inductive isCheckResponse_HttpResponse : Type :=
| CheckResponse_OkResponse (OkResponse : option OkHttpResponse.t)
| CheckResponse_DeniedResponse (DeniedResponse : option DeniedHttpResponse.t).

Module CheckResponse.
Record t : Type := {
  Status : option rpc_status.Status;
  HttpResponse : option isCheckResponse_HttpResponse
}.
(** The zero message, [&CheckResponse{}]. *)
Definition zero : t := {| Status := None; HttpResponse := None |}.
End CheckResponse.

End v2.

(** ** The protocol version shim *)

(** [v2Headers]: one v2 option per v3 option, holding a fresh header with the
    v3 header's key and value.  [hv.GetHeader().Key] panics when the option
    or its header is nil: [None]. *)
Fixpoint v2Headers (hdrs : list (option v3.HeaderValueOption.t))
  : option (list (option v2.HeaderValueOption.t)) :=
  match hdrs with
  | [] => Some []
  | hv :: rest =>
      match v3.HeaderValueOption.GetHeader hv with
      | None => None
      | Some h =>
          match v2Headers rest with
          | None => None
          | Some rest' =>
              Some (Some {| v2.HeaderValueOption.Header :=
                              Some {| v2.HeaderValue.Key := v3.HeaderValue.Key h;
                                      v2.HeaderValue.Value := v3.HeaderValue.Value h |};
                            v2.HeaderValueOption.Append := None |}
                    :: rest')
          end
      end
  end.

(** [v2Status]: [s.Code] panics on a nil status; the conversion between the
    two int32 enumerations keeps the number. *)
Definition v2Status (s : option v3.HttpStatus.t) : option v2.HttpStatus.t :=
  match s with
  | None => None
  | Some s => Some {| v2.HttpStatus.Code := v3.HttpStatus.Code s |}
  end.

(** [v2Response]; [None] is a nil-pointer panic. *)
Definition v2Response (respV3 : v3.CheckResponse.t) : option v2.CheckResponse.t :=
  let status := v3.CheckResponse.Status respV3 in
  match v3.CheckResponse.HttpResponse respV3 with
  | Some (v3.CheckResponse_OkResponse ok) =>
      let hdrs := v3.OkHttpResponse.GetHeaders ok in
      match v2Headers hdrs with
      | None => None
      | Some hs =>
          Some {| v2.CheckResponse.Status := status;
                  v2.CheckResponse.HttpResponse :=
                    Some (v2.CheckResponse_OkResponse
                            (Some {| v2.OkHttpResponse.Headers := hs |})) |}
      end
  | Some (v3.CheckResponse_DeniedResponse denied) =>
      let hdrs := v3.DeniedHttpResponse.GetHeaders denied in
      match v2Headers hdrs, denied with
      | Some hs, Some d =>
          match v2Status (v3.DeniedHttpResponse.Status d) with
          | None => None
          | Some st =>
              Some {| v2.CheckResponse.Status := status;
                      v2.CheckResponse.HttpResponse :=
                        Some (v2.CheckResponse_DeniedResponse
                                (Some {| v2.DeniedHttpResponse.Status := Some st;
                                         v2.DeniedHttpResponse.Headers := hs;
                                         v2.DeniedHttpResponse.Body :=
                                           v3.DeniedHttpResponse.Body d |})) |}
          end
      | _, _ => None
      end
  | None =>
      Some {| v2.CheckResponse.Status := status;
              v2.CheckResponse.HttpResponse := None |}
  end.

(** ** The decision pipeline *)

(** [context.Context]: only [ctx.Err()] is consulted. *)
Record Context : Type := { ctxErr : option error }.

(** The policy input document, [map[string]interface{}]; the nil map is the
    empty list. *)
Definition Input : Type := list (string * Any).

Module server.
(** [server.Info], as far as [log] fills it (the timestamp is left out). *)
Record Info : Type := {
  Input : Input;
  Query : string;
  Path : string;
  NDBuiltinCache : option Any
}.
End server.

Section Pipeline.

(** Opaque to this package: the parsed query, the descriptor registry, the
    wire request, the engine's input value ([ast.Value]) and the storage
    transaction handle. *)
Variables Body Files Request AstValue Transaction : Type.

(** [envoyauth.EvalResult], as far as this package reads and writes it.  The
    struct is declared in package [envoyauth]; [NDBuiltinCache] is held here
    as the value [AsValue()] gives, [None] when the cache is nil. *)
Record EvalResult : Type := {
  DecisionID : string;
  TxnID : Z;
  Txn : option Transaction;
  Decision : Any;
  NDBuiltinCache : option AstValue
}.

Definition setTxn (result : EvalResult) (txn : Transaction) : EvalResult :=
  {| DecisionID := DecisionID result; TxnID := TxnID result; Txn := Some txn;
     Decision := Decision result; NDBuiltinCache := NDBuiltinCache result |}.

(** The collaborators of the pipeline: package [envoyauth] (evaluation
    context, transaction, input building, evaluation, the getters that read
    the decision), [ast.InterfaceToValue], [ast.JSON] and
    [decisionlog.LogDecision].  A collaborator whose first result is read
    even when it fails answers a pair. *)
Record Collaborators : Type := {
  NewEvalResult : Result EvalResult;
  GetTxn : Context -> EvalResult -> Result Transaction;
  RequestToInput : Request -> option Files -> bool -> Input * option error;
  InterfaceToValue : Input -> Result AstValue;
  Eval : Context -> AstValue -> EvalResult -> EvalResult * option error;
  IsAllowed : EvalResult -> Result bool;
  GetResponseEnvoyHeaderValueOptions :
    EvalResult -> Result (list (option v3.HeaderValueOption.t));
  GetDynamicMetadata : EvalResult -> Result (option Struct);
  GetRequestHTTPHeadersToRemove : EvalResult -> Result (list string);
  GetResponseHTTPHeadersToAdd :
    EvalResult -> Result (list (option v3.HeaderValueOption.t));
  GetResponseBody : EvalResult -> Result string;
  GetResponseEnvoyHTTPStatus : EvalResult -> Result (option v3.HttpStatus.t);
  JSON : AstValue -> Result Any;
  LogDecision : server.Info -> EvalResult -> option error -> option error
}.

(** What a call does to its collaborators, in order: the calls that touch
    the store, the engine, the metrics and the audit sink, each with what it
    was given or what it answered. *)
Inductive Event : Type :=
| ENewEvalResult (err : option error)
| EGetTxn (err : option error)
| EEval (err : option error)
| EObserve
| EStopEval
| EJSON (err : option error)
| ELogDecision (info : server.Info) (result : EvalResult) (err : option error)
               (ret : option error)
| ETxnClose (err : option error).

(** A computation that answers an [A] and leaves a trace of events. *)
Definition M (A : Type) : Type := (A * list Event)%type.

Definition ret {A : Type} (a : A) : M A := (a, []).

Definition bind {A B : Type} (m : M A) (k : A -> M B) : M B :=
  let '(a, t1) := m in
  let '(b, t2) := k a in
  (b, (t1 ++ t2)%list).

Definition call (e : Event) : M unit := (tt, [e]).

Definition errOf {A : Type} (r : Result A) : option error :=
  match r with
  | inl _ => None
  | inr e => Some e
  end.

Variable env : Collaborators.
Variable cfg : Config Body Files.

Local Notation "x <- c1 ;; c2" := (bind c1 (fun x => c2))
  (at level 61, c1 at next level, right associativity).
Local Notation "c1 ;;; c2" := (bind c1 (fun _ => c2))
  (at level 61, right associativity).

(** The status a decision yields: OK when allowed, PERMISSION_DENIED
    otherwise. *)
Definition baseStatus (allowed : bool) : Z :=
  if allowed then code.Code_OK else code.Code_PERMISSION_DENIED.

Definition isMapping (d : Any) : bool :=
  match d with
  | AMap _ => true
  | _ => false
  end.

(** How response shaping ends: with a response, or with the error returned
    to the caller and the value the function's own [err] variable holds at
    that return (the variable the [stop] closure reads). *)
Inductive Shaping : Type :=
| Shaped (resp : v3.CheckResponse.t)
| ShapingFailed (err : option error) (returned : error).

(** Response shaping: the part of [check] from [IsAllowed] to the end of the
    switch on the decision's type.  Inside the mapping case,
    [dynamicMetadata, err := ...] declares a new [err]: from there on the
    getters' errors live in that inner variable and the outer one stays nil. *)
Definition shape (result : EvalResult) : Shaping :=
  match IsAllowed env result with
  | inr err => ShapingFailed (Some err) (Wrap err "failed to get response status")
  | inl allowed =>
  let status := baseStatus allowed in
  let respStatus := Some {| rpc_status.Code := status; rpc_status.Message := "" |} in
  if isMapping (Decision result) then
    match GetResponseEnvoyHeaderValueOptions env result with
    | inr err => ShapingFailed (Some err) (Wrap err "failed to get response headers")
    | inl responseHeaders =>
    match GetDynamicMetadata env result with
    | inr err => ShapingFailed None (Wrap err "failed to get dynamic metadata")
    | inl dynamicMetadata =>
    if status =? code.Code_OK then
      match GetRequestHTTPHeadersToRemove env result with
      | inr err =>
          ShapingFailed None (Wrap err "failed to get request headers to remove")
      | inl headersToRemove =>
      match GetResponseHTTPHeadersToAdd env result with
      | inr err =>
          ShapingFailed None
            (Wrap err "failed to get response headers to send to client")
      | inl responseHeadersToAdd =>
          Shaped
            {| v3.CheckResponse.Status := respStatus;
               v3.CheckResponse.HttpResponse :=
                 Some (v3.CheckResponse_OkResponse
                         (Some {| v3.OkHttpResponse.Headers := responseHeaders;
                                  v3.OkHttpResponse.HeadersToRemove := headersToRemove;
                                  v3.OkHttpResponse.ResponseHeadersToAdd :=
                                    responseHeadersToAdd |}));
               v3.CheckResponse.DynamicMetadata := dynamicMetadata |}
      end end
    else
      match GetResponseBody env result with
      | inr err => ShapingFailed None (Wrap err "failed to get response body")
      | inl body =>
      match GetResponseEnvoyHTTPStatus env result with
      | inr err => ShapingFailed None (Wrap err "failed to get response http status")
      | inl httpStatus =>
          Shaped
            {| v3.CheckResponse.Status := respStatus;
               v3.CheckResponse.HttpResponse :=
                 Some (v3.CheckResponse_DeniedResponse
                         (Some {| v3.DeniedHttpResponse.Status := httpStatus;
                                  v3.DeniedHttpResponse.Headers := responseHeaders;
                                  v3.DeniedHttpResponse.Body := body |}));
               v3.CheckResponse.DynamicMetadata := dynamicMetadata |}
      end end
    end end
  else
    Shaped {| v3.CheckResponse.Status := respStatus;
              v3.CheckResponse.HttpResponse := None;
              v3.CheckResponse.DynamicMetadata := None |}
  end.

(** The code of a response's status; [resp.Status.Code] is only read where
    the status has been set. *)
Definition statusCode (resp : v3.CheckResponse.t) : option Z :=
  option_map rpc_status.Code (v3.CheckResponse.Status resp).

(** The dry-run override at the end of [check]. *)
Definition dryRunOverride (resp : v3.CheckResponse.t) : v3.CheckResponse.t :=
  if DryRun cfg then
    match statusCode resp with
    | Some c =>
        if negb (c =? code.Code_OK) then
          {| v3.CheckResponse.Status :=
               Some {| rpc_status.Code := code.Code_OK; rpc_status.Message := "" |};
             v3.CheckResponse.HttpResponse :=
               Some (v3.CheckResponse_OkResponse (Some v3.OkHttpResponse.zero));
             v3.CheckResponse.DynamicMetadata := v3.CheckResponse.DynamicMetadata resp |}
        else resp
    | None => resp
    end
  else resp.

(** The closure [check] hands back.  [StopNoop] is the closure that returns
    nil; [StopFinalize] is [stop], with the values its captured variables
    [input], [result], [err] and [evalErr] hold when [check] returns. *)
Inductive StopClosure : Type :=
| StopNoop
| StopFinalize (input : Input) (result : EvalResult) (err evalErr : option error).

(** [log]. *)
Definition log (input : Input) (result : EvalResult) (err : option error)
  : M (option error) :=
  let query := if negb (String.eqb (Query cfg) "") then Query cfg else "" in
  let path := if negb (String.eqb (Path cfg) "") then Path cfg else "" in
  let emit nd :=
    let info := {| server.Input := input; server.Query := query;
                   server.Path := path; server.NDBuiltinCache := nd |} in
    let r := LogDecision env info result err in
    call (ELogDecision info result err r) ;;; ret r in
  match NDBuiltinCache result with
  | Some cache =>
      let x := JSON env cache in
      call (EJSON (errOf x)) ;;;
      match x with
      | inr err => ret (Some err)
      | inl x => emit (Some x)
      end
  | None => emit None
  end.

(** Running the closure [check] handed back. *)
Definition runStop (stop : StopClosure) : M (option rpc_status.Status) :=
  match stop with
  | StopNoop => ret None
  | StopFinalize input result err evalErr =>
      call EStopEval ;;;
      logErr <- log input result err ;;
      match logErr with
      | Some le =>
          call (ETxnClose (Some le)) ;;;
          ret (Some {| rpc_status.Code := code.Code_UNKNOWN;
                       rpc_status.Message := le |})
      | None =>
          call (ETxnClose evalErr) ;;;
          ret None
      end
  end.

Definition CheckResult : Type :=
  (option v3.CheckResponse.t * StopClosure * option error)%type.

(** The end of [check], once evaluation has succeeded: shaping, the latency
    metric, the dry-run override. *)
Definition respond (input : Input) (result : EvalResult) : M CheckResult :=
  match shape result with
  | ShapingFailed err returned =>
      ret (None, StopFinalize input result err None, Some returned)
  | Shaped resp =>
      (if EnablePerformanceMetrics cfg then call EObserve else ret tt) ;;;
      ret (Some (dryRunOverride resp), StopFinalize input result None None, None)
  end.

(** [check] from the deadline check on, with the transaction acquired. *)
Definition evaluate (ctx : Context) (req : Request) (result : EvalResult)
  : M CheckResult :=
  match ctxErr ctx with
  | Some e =>
      let err := Wrap e "check request timed out before query execution" in
      ret (None, StopFinalize [] result (Some err) None, Some err)
  | None =>
  let '(input, err) :=
    RequestToInput env req (protoSet cfg) (SkipRequestBodyParse cfg) in
  match err with
  | Some e => ret (None, StopFinalize input result (Some e) None, Some e)
  | None =>
  match InterfaceToValue env input with
  | inr e => ret (None, StopFinalize input result (Some e) None, Some e)
  | inl inputValue =>
  let '(result, err) := Eval env ctx inputValue result in
  call (EEval err) ;;;
  match err with
  | Some e => ret (None, StopFinalize input result (Some e) (Some e), Some e)
  | None => respond input result
  end end end end.

(** [check]. *)
Definition check (ctx : Context) (req : Request) : M CheckResult :=
  let r := NewEvalResult env in
  call (ENewEvalResult (errOf r)) ;;;
  match r with
  | inr err => ret (None, StopNoop, Some err)
  | inl result =>
  let t := GetTxn env ctx result in
  call (EGetTxn (errOf t)) ;;;
  match t with
  | inr err => ret (None, StopNoop, Some err)
  | inl txn => evaluate ctx req (setTxn result txn)
  end end.

Definition setStatus (resp : v3.CheckResponse.t) (st : rpc_status.Status)
  : v3.CheckResponse.t :=
  {| v3.CheckResponse.Status := Some st;
     v3.CheckResponse.HttpResponse := v3.CheckResponse.HttpResponse resp;
     v3.CheckResponse.DynamicMetadata := v3.CheckResponse.DynamicMetadata resp |}.

(** The guarded assignment of the v3 entry point:
    [if code := stop(); resp != nil && code != nil { resp.Status = code }]. *)
Definition override (resp : option v3.CheckResponse.t)
  (code : option rpc_status.Status) : option v3.CheckResponse.t :=
  match resp, code with
  | Some resp, Some code => Some (setStatus resp code)
  | _, _ => resp
  end.

(** [envoyExtAuthzGrpcServer.Check], the v3 entry point. *)
Definition Check (ctx : Context) (req : Request)
  : M (option v3.CheckResponse.t * option error) :=
  r <- check ctx req ;;
  let '(resp, stop, err) := r in
  code <- runStop stop ;;
  ret (override resp code, err).

(** *** The v2 entry point

    Its deferred function writes through the variable [respV2], a pointer.
    The heap holds the v2 responses the function allocates; an address is an
    index into it. *)
Definition Heap : Type := list v2.CheckResponse.t.

Definition store (h : Heap) (a : nat) (f : v2.CheckResponse.t -> v2.CheckResponse.t)
  : Heap :=
  match nth_error h a with
  | Some r => (firstn a h ++ f r :: skipn (S a) h)%list
  | None => h
  end.

Definition setStatusV2 (st : rpc_status.Status) (resp : v2.CheckResponse.t)
  : v2.CheckResponse.t :=
  {| v2.CheckResponse.Status := Some st;
     v2.CheckResponse.HttpResponse := v2.CheckResponse.HttpResponse resp |}.

(** What the body of the v2 [Check] leaves when it reaches a return statement
    or panics: the returned pointer and error ([None] for a panic), the
    address the variable [respV2] holds at that moment, and the heap. *)
Definition CheckV2_body (respV3 : option v3.CheckResponse.t) (err : option error)
  : option (option nat * option error) * nat * Heap :=
  let heap := [v2.CheckResponse.zero] in
  let respV2 := 0%nat in
  match err with
  | Some e => (Some (None, Some e), respV2, heap)
  | None =>
      match respV3 with
      | None => (None, respV2, heap)
      | Some r3 =>
          match v2Response r3 with
          | None => (None, respV2, heap)
          | Some r2 =>
              let respV2 := length heap in
              (Some (Some respV2, None), respV2, (heap ++ [r2])%list)
          end
      end
  end.

(** [envoyExtAuthzV2Wrapper.Check]: the body, then the deferred function
    (which runs on a panic too), then what the caller sees through the
    returned pointer.  [None] is a panic leaving the function. *)
Definition CheckV2 (ctx : Context) (req : Request)
  : M (option (option v2.CheckResponse.t * option error)) :=
  r <- check ctx req ;;
  let '(respV3, stop, err) := r in
  let '(returned, respV2, heap) := CheckV2_body respV3 err in
  code <- runStop stop ;;
  let heap := match code with
              | Some code => store heap respV2 (setStatusV2 code)
              | None => heap
              end in
  ret (match returned with
       | None => None
       | Some (None, e) => Some (None, e)
       | Some (Some a, e) => Some (nth_error heap a, e)
       end).

End Pipeline.

Arguments ENewEvalResult {AstValue Transaction} err.
Arguments EGetTxn {AstValue Transaction} err.
Arguments EEval {AstValue Transaction} err.
Arguments EObserve {AstValue Transaction}.
Arguments EStopEval {AstValue Transaction}.
Arguments EJSON {AstValue Transaction} err.
Arguments ETxnClose {AstValue Transaction} err.
Arguments StopNoop {AstValue Transaction}.

(** ** Reading a call's trace *)

Section Traces.

Variables Body Files Request AstValue Transaction : Type.

Local Abbreviation Ev := (Event AstValue Transaction).

Definition isStopEval (e : Ev) : bool :=
  match e with
  | EStopEval => true
  | _ => false
  end.

Definition isSinkCall (e : Ev) : bool :=
  match e with
  | ELogDecision _ _ _ _ => true
  | _ => false
  end.

Definition isTxnClose (e : Ev) : bool :=
  match e with
  | ETxnClose _ => true
  | _ => false
  end.

Definition isFinalizeEvent (e : Ev) : bool :=
  match e with
  | EStopEval | EJSON _ | ELogDecision _ _ _ _ | ETxnClose _ => true
  | _ => false
  end.

(** How often an event of some kind occurs in a trace. *)
Definition occurrences (p : Ev -> bool) (t : list Ev) : nat :=
  length (filter p t).

(** The call acquired a storage transaction. *)
Definition acquired (t : list Ev) : bool :=
  existsb (fun e => match e with EGetTxn None => true | _ => false end) t.

(** The evaluation step itself failed. *)
Definition evalFailed (t : list Ev) : bool :=
  existsb (fun e => match e with EEval (Some _) => true | _ => false end) t.

(** The error of a failed audit-log emission: the cache conversion inside
    [log] failed, or the sink did. *)
Definition emissionError (e : Ev) : option error :=
  match e with
  | EJSON (Some m) => Some m
  | ELogDecision _ _ _ (Some m) => Some m
  | _ => None
  end.

Fixpoint logFailure (t : list Ev) : option error :=
  match t with
  | [] => None
  | e :: t' =>
      match emissionError e with
      | Some m => Some m
      | None => logFailure t'
      end
  end.

(** The error handed to the transaction closer, if the trace closes one. *)
Fixpoint closedWith (t : list Ev) : option (option error) :=
  match t with
  | [] => None
  | ETxnClose e :: _ => Some e
  | _ :: t' => closedWith t'
  end.

(** What the audit sink was given: the evaluation result and the error. *)
Fixpoint logged (t : list Ev)
  : option (EvalResult AstValue Transaction * option error) :=
  match t with
  | [] => None
  | ELogDecision _ result err _ :: _ => Some (result, err)
  | _ :: t' => logged t'
  end.

(** A trace with no finalize event: nothing of the [stop] closure ran. *)
Definition quiet (t : list Ev) : Prop :=
  forallb (fun e => negb (isFinalizeEvent e)) t = true.

(** A trace of finalize events only. *)
Definition finalizing (t : list Ev) : Prop :=
  forallb isFinalizeEvent t = true.

End Traces.

Arguments isStopEval {AstValue Transaction} e.
Arguments isSinkCall {AstValue Transaction} e.
Arguments isTxnClose {AstValue Transaction} e.
Arguments isFinalizeEvent {AstValue Transaction} e.

(** The traces [log] can leave and the error it returns with each: the sink
    called with the evaluation result and the error it was handed, possibly
    after the cache conversion, or the conversion failing before the sink is
    reached. *)
Inductive Emission (AstValue Transaction : Type)
  (result : EvalResult AstValue Transaction) (err : option error)
  : list (Event AstValue Transaction) -> option error -> Prop :=
| EmitSink (info : server.Info) (ret : option error) :
    Emission result err [ELogDecision info result err ret] ret
| EmitConversionFailed (m : error) :
    Emission result err [EJSON (Some m)] (Some m)
| EmitConverted (info : server.Info) (ret : option error) :
    Emission result err [EJSON None; ELogDecision info result err ret] ret.

Inductive CloseMode : Type := Commit | Abort.

(** Modelled from the spec: the transaction closer that [GetTxn] of package
    [envoyauth] hands out is not under src.  The spec's finalize step closes
    with abort when it is given a set error and with commit otherwise. *)
Definition closeMode (err : option error) : CloseMode :=
  match err with
  | Some _ => Abort
  | None => Commit
  end.

(** ** Reading a response *)

(** The pointer is not nil. *)
Definition isSet {A : Type} (x : option A) : bool :=
  match x with
  | Some _ => true
  | None => false
  end.

(** The generated getters [GetOkResponse] and [GetDeniedResponse]. *)
Definition GetOkResponse (resp : v3.CheckResponse.t) : option v3.OkHttpResponse.t :=
  match v3.CheckResponse.HttpResponse resp with
  | Some (v3.CheckResponse_OkResponse ok) => ok
  | _ => None
  end.

Definition GetDeniedResponse (resp : v3.CheckResponse.t)
  : option v3.DeniedHttpResponse.t :=
  match v3.CheckResponse.HttpResponse resp with
  | Some (v3.CheckResponse_DeniedResponse d) => d
  | _ => None
  end.

(** The status the [stop] closure answers and the error it closes the
    transaction with, by the error of the emission ([None] when the audit
    log was written). *)
Definition stopCode (logErr : option error) : option rpc_status.Status :=
  match logErr with
  | Some le => Some {| rpc_status.Code := code.Code_UNKNOWN; rpc_status.Message := le |}
  | None => None
  end.

Definition stopClose (logErr evalErr : option error) : option error :=
  match logErr with
  | Some le => Some le
  | None => evalErr
  end.

(** A finalization: the metrics stopped, then the emission, then the close. *)
Definition Finalization (AstValue Transaction : Type)
  (result : EvalResult AstValue Transaction) (err evalErr logErr : option error)
  (t : list (Event AstValue Transaction)) : Prop :=
  exists mid, Emission result err mid logErr /\
              t = (EStopEval :: mid ++ [ETxnClose (stopClose logErr evalErr)])%list.

(** How many of the two branches a response populates. *)
Definition branchesPopulated (resp : v3.CheckResponse.t) : nat :=
  ((if isSet (GetOkResponse resp) then 1 else 0)
   + (if isSet (GetDeniedResponse resp) then 1 else 0))%nat.

(** A status with a code and no message, [&rpc_status.Status{Code: c}]. *)
Definition statusOf (c : Z) : option rpc_status.Status :=
  Some {| rpc_status.Code := c; rpc_status.Message := "" |}.

(** The response that carries a status and nothing else. *)
Definition statusOnly (c : Z) : v3.CheckResponse.t :=
  {| v3.CheckResponse.Status := statusOf c;
     v3.CheckResponse.HttpResponse := None;
     v3.CheckResponse.DynamicMetadata := None |}.

(** The empty allow-branch the dry-run override installs. *)
Definition emptyAllowBranch : option v3.isCheckResponse_HttpResponse :=
  Some (v3.CheckResponse_OkResponse (Some v3.OkHttpResponse.zero)).

(** The key and value of each header option of a list; [None] where the
    option or its header is nil. *)
Definition keyValuesV3 (hdrs : list (option v3.HeaderValueOption.t))
  : list (option (string * string)) :=
  map (fun hv => option_map (fun h => (v3.HeaderValue.Key h, v3.HeaderValue.Value h))
                            (v3.HeaderValueOption.GetHeader hv)) hdrs.

Definition keyValuesV2 (hdrs : list (option v2.HeaderValueOption.t))
  : list (option (string * string)) :=
  map (fun hv => match hv with
                 | Some o => option_map (fun h => (v2.HeaderValue.Key h, v2.HeaderValue.Value h))
                                        (v2.HeaderValueOption.Header o)
                 | None => None
                 end) hdrs.

(** Every header option of the list holds a header. *)
Definition headersPresent (hdrs : list (option v3.HeaderValueOption.t)) : bool :=
  forallb (fun hv => isSet (v3.HeaderValueOption.GetHeader hv)) hdrs.

(** The fields [v2Response] dereferences are set: the headers of the
    populated branch and, on the deny branch, the message and its status. *)
Definition translatable (resp : v3.CheckResponse.t) : bool :=
  match v3.CheckResponse.HttpResponse resp with
  | Some (v3.CheckResponse_OkResponse ok) =>
      headersPresent (v3.OkHttpResponse.GetHeaders ok)
  | Some (v3.CheckResponse_DeniedResponse (Some d)) =>
      headersPresent (v3.DeniedHttpResponse.Headers d)
      && isSet (v3.DeniedHttpResponse.Status d)
  | Some (v3.CheckResponse_DeniedResponse None) => false
  | None => true
  end.

(** The getters of package [envoyauth] hand out header options that hold a
    header and a deny status that is set. *)
Definition settledGetters (Files Request AstValue Transaction : Type)
  (env : Collaborators Files Request AstValue Transaction) : Prop :=
  (forall r hs, GetResponseEnvoyHeaderValueOptions env r = inl hs ->
                headersPresent hs = true) /\
  (forall r st, GetResponseEnvoyHTTPStatus env r = inl st -> isSet st = true).

(** ** A small policy engine, for running the pipeline on concrete calls

    Stand-ins for the collaborators: the request is its path, the parsed
    query and the engine's input value are plain data, a transaction is its
    number.  The engine answers a fixed decision; the getters read it the
    way the real ones do (the allow bit of a boolean or of a mapping's
    [allowed] key, the metadata under [dynamic_metadata]). *)

Fixpoint lookup (k : string) (kvs : list (string * Any)) : option Any :=
  match kvs with
  | [] => None
  | (k', v) :: rest => if String.eqb k k' then Some v else lookup k rest
  end.

Definition demoResult : EvalResult Any Z :=
  {| DecisionID := "decision-1"; TxnID := 0; Txn := None; Decision := ANil;
     NDBuiltinCache := None |}.

Definition setDecision (r : EvalResult Any Z) (d : Any) : EvalResult Any Z :=
  {| DecisionID := DecisionID r; TxnID := TxnID r; Txn := Txn r; Decision := d;
     NDBuiltinCache := NDBuiltinCache r |}.

Definition demoIsAllowed (r : EvalResult Any Z) : Result bool :=
  match Decision r with
  | ABool b => inl b
  | AMap kvs =>
      match lookup "allowed" kvs with
      | Some (ABool b) => inl b
      | _ => inr "unable to determine evaluation result"
      end
  | _ => inr "illegal value for policy evaluation result"
  end.

Definition demoMetadata (r : EvalResult Any Z) : Result (option Struct) :=
  match Decision r with
  | AMap kvs =>
      match lookup "dynamic_metadata" kvs with
      | Some (AMap m) => inl (Some m)
      | Some _ => inr "dynamic_metadata is not a mapping"
      | None => inl None
      end
  | _ => inl None
  end.

Definition demoHeader (k v : string) : option v3.HeaderValueOption.t :=
  Some {| v3.HeaderValueOption.Header :=
            Some {| v3.HeaderValue.Key := k; v3.HeaderValue.Value := v |};
          v3.HeaderValueOption.Append := Some false |}.

(** A scenario fixes what the collaborators answer: whether the store hands
    out a transaction, whether evaluation fails, the decision, and what the
    audit sink answers. *)
Record Scenario : Type := {
  storeAnswer : Result Z;
  evalAnswer : option error;
  decisionAnswer : Any;
  sinkAnswer : option error
}.

Definition demoEnv (s : Scenario) : Collaborators unit string Any Z :=
  {| NewEvalResult := inl demoResult;
     GetTxn := fun _ _ => storeAnswer s;
     RequestToInput := fun req _ _ => ([("path", AString req)], None);
     InterfaceToValue := fun input => inl (AMap input);
     Eval := fun _ _ r =>
       match evalAnswer s with
       | Some e => (r, Some e)
       | None => (setDecision r (decisionAnswer s), None)
       end;
     IsAllowed := demoIsAllowed;
     GetResponseEnvoyHeaderValueOptions := fun _ => inl [demoHeader "x-policy" "demo"];
     GetDynamicMetadata := demoMetadata;
     GetRequestHTTPHeadersToRemove := fun _ => inl ["x-internal"];
     GetResponseHTTPHeadersToAdd := fun _ => inl [demoHeader "x-checked" "yes"];
     GetResponseBody := fun _ => inl "denied by policy";
     GetResponseEnvoyHTTPStatus := fun _ => inl (Some {| v3.HttpStatus.Code := 403 |});
     JSON := fun v => inl v;
     LogDecision := fun _ _ _ => sinkAnswer s |}.

(** Everything works and the policy decides [d]. *)
Definition healthy (d : Any) : Scenario :=
  {| storeAnswer := inl 1; evalAnswer := None; decisionAnswer := d;
     sinkAnswer := None |}.

(** As [healthy], with the audit sink failing. *)
Definition sinkDown (d : Any) : Scenario :=
  {| storeAnswer := inl 1; evalAnswer := None; decisionAnswer := d;
     sinkAnswer := Some "audit sink unavailable" |}.

(** The store hands out no transaction. *)
Definition storeDown : Scenario :=
  {| storeAnswer := inr "storage unavailable"; evalAnswer := None;
     decisionAnswer := ANil; sinkAnswer := None |}.

(** Evaluation fails. *)
Definition evalDown : Scenario :=
  {| storeAnswer := inl 1; evalAnswer := Some "policy evaluation failed";
     decisionAnswer := ANil; sinkAnswer := None |}.

(** A configuration with the path entry point, and its dry-run variant. *)
Definition demoConfig (dryRun : bool) : Config string unit :=
  setDryRun (setPath (defaultConfig string unit) defaultPath) dryRun.

Definition background : Context := {| ctxErr := None |}.
Definition expired : Context := {| ctxErr := Some "context deadline exceeded" |}.

(** A mapping decision that denies and carries dynamic metadata. *)
Definition denyWithMetadata : Any :=
  AMap [("allowed", ABool false);
        ("dynamic_metadata", AMap [("team", AString "payments")])].

(** The evaluation result the demo engine leaves for decision [d]. *)
Definition decided (d : Any) : EvalResult Any Z :=
  setDecision (setTxn demoResult 1) d.

(** A decoder for four configuration documents, a parser that keeps the
    query text, and a descriptor loader. *)
Definition setQuery (cfg : Config string unit) (q : string) : Config string unit :=
  {| Addr := Addr cfg; Query := q; Path := Path cfg; DryRun := DryRun cfg;
     EnableReflection := EnableReflection cfg; parsedQuery := parsedQuery cfg;
     ProtoDescriptor := ProtoDescriptor cfg; protoSet := protoSet cfg;
     GRPCMaxRecvMsgSize := GRPCMaxRecvMsgSize cfg;
     GRPCMaxSendMsgSize := GRPCMaxSendMsgSize cfg;
     SkipRequestBodyParse := SkipRequestBodyParse cfg;
     EnablePerformanceMetrics := EnablePerformanceMetrics cfg |}.

Definition demoUnmarshal (bs : string) (cfg : Config string unit)
  : Result (Config string unit) :=
  if String.eqb bs "{}" then inl cfg
  else if String.eqb bs "{path: foo/bar}" then inl (setPath cfg "foo/bar")
  else if String.eqb bs "{query: data.foo.bar}" then inl (setQuery cfg "data.foo.bar")
  else if String.eqb bs "{path: foo/bar, query: data.foo.bar}"
       then inl (setQuery (setPath cfg "foo/bar") "data.foo.bar")
  else inr "cannot decode the configuration".

Definition demoParseBody (q : string) : Result string :=
  if String.eqb q "" then inr "empty query" else inl q.

Definition demoReadProtoSet (path : string) : Result unit := inl tt.

Definition demoValidate : string -> Result (Config string unit) :=
  Validate demoUnmarshal demoParseBody demoReadProtoSet (fun s => s).

(** The status the [stop] closure answers when the demo sink is down. *)
Definition sinkUnknown : rpc_status.Status :=
  {| rpc_status.Code := code.Code_UNKNOWN;
     rpc_status.Message := "audit sink unavailable" |}.

(** The response [check] returns once the dry-run override has fired on a
    decision without dynamic metadata. *)
Definition forcedAllow : v3.CheckResponse.t :=
  {| v3.CheckResponse.Status := statusOf code.Code_OK;
     v3.CheckResponse.HttpResponse := emptyAllowBranch;
     v3.CheckResponse.DynamicMetadata := None |}.

(** ** Further readings of the entry point *)

(** A term a resolved path may hold: a string key that is not empty, holds
    no slash and is no [int], or an integer index within [int]. *)
Definition resolvedTerm (t : ast.Term) : bool :=
  match t with
  | ast.VarTerm _ => false
  | ast.StringTerm x =>
      negb (String.eqb x "")
      && ast.allBytes (fun c => negb (Ascii.eqb c "/")) x
      && negb (isSet (strconv.Atoi x))
  | ast.IntNumberTerm i => (strconv.minInt <=? i) && (i <=? strconv.maxInt)
  end.

(** A segment the library prints after a dot: an identifier that is no
    keyword. *)
Definition plainKey (x : string) : bool :=
  ast.varRegexp x && negb (ast.IsKeyword x).

(** The text [Validate] hands to the parser for a configuration. *)
Definition entryPointText (Body Files : Type) (quote : string -> string)
  (cfg : Config Body Files) : string :=
  if negb (String.eqb (Query cfg) "") then Query cfg
  else refString quote
         (stringPathToDataRef
            (if String.eqb (Path cfg) "" then defaultPath else Path cfg)).

(** ** Further readings of a call's trace *)

Section MoreTraces.

Variables AstValue Transaction : Type.

Local Abbreviation Ev := (Event AstValue Transaction).

Definition isObserve (e : Ev) : bool :=
  match e with
  | EObserve => true
  | _ => false
  end.

Definition isEval (e : Ev) : bool :=
  match e with
  | EEval _ => true
  | _ => false
  end.

End MoreTraces.

Arguments isObserve {AstValue Transaction} e.
Arguments isEval {AstValue Transaction} e.

(** The builtin cache of a result as [log] converts it for the audit entry:
    [nil] when the result has none. *)
Definition convertedCache (Files Request AstValue Transaction : Type)
  (env : Collaborators Files Request AstValue Transaction)
  (result : EvalResult AstValue Transaction) : option Any :=
  match NDBuiltinCache result with
  | Some cache =>
      match JSON env cache with
      | inl x => Some x
      | inr _ => None
      end
  | None => None
  end.




(** ** What the v2 translation can see of a v3 response *)

(** A header option without its append flag. *)
Definition withoutAppend (hv : option v3.HeaderValueOption.t)
  : option v3.HeaderValueOption.t :=
  option_map (fun o => {| v3.HeaderValueOption.Header := v3.HeaderValueOption.Header o;
                          v3.HeaderValueOption.Append := None |}) hv.

(** A v3 response without the parts the v2 messages have no field for: the
    headers to remove, the response headers to add, the dynamic metadata and
    the append flag of each header. *)
Definition v2Visible (resp : v3.CheckResponse.t) : v3.CheckResponse.t :=
  {| v3.CheckResponse.Status := v3.CheckResponse.Status resp;
     v3.CheckResponse.HttpResponse :=
       match v3.CheckResponse.HttpResponse resp with
       | Some (v3.CheckResponse_OkResponse (Some ok)) =>
           Some (v3.CheckResponse_OkResponse
                   (Some {| v3.OkHttpResponse.Headers :=
                              map withoutAppend (v3.OkHttpResponse.Headers ok);
                            v3.OkHttpResponse.HeadersToRemove := [];
                            v3.OkHttpResponse.ResponseHeadersToAdd := [] |}))
       | Some (v3.CheckResponse_DeniedResponse (Some d)) =>
           Some (v3.CheckResponse_DeniedResponse
                   (Some {| v3.DeniedHttpResponse.Status := v3.DeniedHttpResponse.Status d;
                            v3.DeniedHttpResponse.Headers :=
                              map withoutAppend (v3.DeniedHttpResponse.Headers d);
                            v3.DeniedHttpResponse.Body := v3.DeniedHttpResponse.Body d |}))
       | other => other
       end;
     v3.CheckResponse.DynamicMetadata := None |}.

(** The audit entry of the demo call on request [/a]. *)
Definition demoEntry : server.Info :=
  {| server.Input := [("path", AString "/a")]; server.Query := "";
     server.Path := defaultPath; server.NDBuiltinCache := None |}.

(** Two allow responses that differ in what the v2 messages cannot carry. *)
Definition allowPlain : v3.CheckResponse.t :=
  {| v3.CheckResponse.Status := statusOf code.Code_OK;
     v3.CheckResponse.HttpResponse :=
       Some (v3.CheckResponse_OkResponse
               (Some {| v3.OkHttpResponse.Headers := [demoHeader "x-policy" "demo"];
                        v3.OkHttpResponse.HeadersToRemove := [];
                        v3.OkHttpResponse.ResponseHeadersToAdd := [] |}));
     v3.CheckResponse.DynamicMetadata := None |}.

Definition allowRich : v3.CheckResponse.t :=
  {| v3.CheckResponse.Status := statusOf code.Code_OK;
     v3.CheckResponse.HttpResponse :=
       Some (v3.CheckResponse_OkResponse
               (Some {| v3.OkHttpResponse.Headers :=
                          [Some {| v3.HeaderValueOption.Header :=
                                     Some {| v3.HeaderValue.Key := "x-policy";
                                             v3.HeaderValue.Value := "demo" |};
                                   v3.HeaderValueOption.Append := Some true |}];
                        v3.OkHttpResponse.HeadersToRemove := ["x-internal"];
                        v3.OkHttpResponse.ResponseHeadersToAdd :=
                          [demoHeader "x-checked" "yes"] |}));
     v3.CheckResponse.DynamicMetadata := Some [("team", AString "payments")] |}.

(** ** The listener *)

(** [strings.HasPrefix] and [strings.Contains]. *)
Fixpoint HasPrefix (s prefix : string) {struct prefix} : bool :=
  match prefix, s with
  | EmptyString, _ => true
  | String p prefix', String c s' => Ascii.eqb c p && HasPrefix s' prefix'
  | String _ _, EmptyString => false
  end.

Fixpoint Contains (s substr : string) : bool :=
  HasPrefix s substr
  || match s with
     | EmptyString => false
     | String _ s' => Contains s' substr
     end.

Module url.
(** [url.URL], as far as [listen] reads it. *)
Record URL : Type := { Scheme : string; Host : string; Path : string }.
End url.

Module plugins.
(** The plugin states this package reports. *)
Inductive State : Type := StateNotReady | StateOK.
End plugins.

Section Listener.

Variables Body Files Listener : Type.

(** What [listen] calls outside the package: [url.Parse], [URL.String],
    [net.Listen] (a nil listener with its error), the server's [Serve] (its
    error once it returns) and the quoting of [fmt]'s [%q]. *)
Record Platform : Type := {
  Parse : string -> Result url.URL;
  URLString : url.URL -> string;
  Listen : string -> string -> Result Listener;
  Serve : option Listener -> option error;
  Quote : string -> string
}.

(** What a run of [listen] does, in order. *)
Inductive ListenEvent : Type :=
| LParse (rawURL : string)
| LRemove (name : string)
| LListen (network address : string)
| LError (msg : string) (err : error)
| LInfo (msg : string)
| LStatus (state : plugins.State)
| LServe (l : option Listener).

(** The switch on the scheme: the calls it makes, and the values its
    assignments leave in [l] and [err]. *)
Definition openListener (os : Platform) (parsedURL : url.URL)
  : list ListenEvent * option Listener * option error :=
  if String.eqb (url.Scheme parsedURL) "unix" then
    let socketPath := url.Host parsedURL ++ url.Path parsedURL in
    let '(socketPath, removal) :=
      if HasPrefix (URLString os parsedURL) (url.Scheme parsedURL ++ "://@")
      then ("@" ++ socketPath, [])
      else (socketPath, [LRemove socketPath]) in
    match Listen os "unix" socketPath with
    | inl l => ((removal ++ [LListen "unix" socketPath])%list, Some l, None)
    | inr err => ((removal ++ [LListen "unix" socketPath])%list, None, Some err)
    end
  else if String.eqb (url.Scheme parsedURL) "grpc" then
    match Listen os "tcp" (url.Host parsedURL) with
    | inl l => ([LListen "tcp" (url.Host parsedURL)], Some l, None)
    | inr err => ([LListen "tcp" (url.Host parsedURL)], None, Some err)
    end
  else ([], None, Some ("invalid url scheme " ++ Quote os (url.Scheme parsedURL))).

(** [listen]. *)
Definition listen (os : Platform) (cfg : Config Body Files) : list ListenEvent :=
  let addr := Addr cfg in
  let addr := if negb (Contains addr "://") then "grpc://" ++ addr else addr in
  LParse addr ::
  match Parse os addr with
  | inr err => [LError "Unable to parse url." err]
  | inl parsedURL =>
      let '(opened, l, err) := openListener os parsedURL in
      (opened
       ++ match err with
          | Some err => [LError "Unable to create listener." err]
          | None => []
          end
       ++ [LInfo "Starting gRPC server."; LStatus plugins.StateOK; LServe l]
       ++ match Serve os l with
          | Some err => [LError "Listener failed." err]
          | None => [LInfo "Listener exited."; LStatus plugins.StateNotReady]
          end)%list
  end.

(** The states a run reports, in order. *)
Fixpoint statuses (t : list ListenEvent) : list plugins.State :=
  match t with
  | [] => []
  | LStatus s :: t' => s :: statuses t'
  | _ :: t' => statuses t'
  end.

(** The listener handed to [Serve], if the run serves. *)
Fixpoint served (t : list ListenEvent) : option (option Listener) :=
  match t with
  | [] => None
  | LServe l :: _ => Some l
  | _ :: t' => served t'
  end.

(** The error logged for a listener that could not be created. *)
Fixpoint listenerError (t : list ListenEvent) : option error :=
  match t with
  | [] => None
  | LError msg err :: t' =>
      if String.eqb msg "Unable to create listener." then Some err
      else listenerError t'
  | _ :: t' => listenerError t'
  end.

(** The calls that touch the file system or the network. *)
Definition isRemove (e : ListenEvent) : bool :=
  match e with
  | LRemove _ => true
  | _ => false
  end.

Definition isListen (e : ListenEvent) : bool :=
  match e with
  | LListen _ _ => true
  | _ => false
  end.

End Listener.

Arguments LParse {Listener} rawURL.
Arguments LRemove {Listener} name.
Arguments LListen {Listener} network address.
Arguments LError {Listener} msg err.
Arguments LInfo {Listener} msg.
Arguments LStatus {Listener} state.
Arguments isRemove {Listener} e.
Arguments isListen {Listener} e.

(** A platform for concrete runs: URLs of the form scheme://host, a port
    that is taken, and a server that is stopped. *)
Definition demoParse (rawURL : string) : Result url.URL :=
  if String.eqb rawURL "grpc://:9191"
  then inl {| url.Scheme := "grpc"; url.Host := ":9191"; url.Path := "" |}
  else if String.eqb rawURL "unix:///run/authz.sock"
  then inl {| url.Scheme := "unix"; url.Host := ""; url.Path := "/run/authz.sock" |}
  else if String.eqb rawURL "http://:9191"
  then inl {| url.Scheme := "http"; url.Host := ":9191"; url.Path := "" |}
  else inr "parse: invalid URL".

Definition demoPlatform (portTaken : bool) : Platform nat :=
  {| Parse := demoParse;
     URLString := fun u => url.Scheme u ++ "://" ++ url.Host u ++ url.Path u;
     Listen := fun network address =>
       if portTaken then inr "bind: address already in use" else inl 1%nat;
     Serve := fun l => None;
     Quote := fun s => dquote ++ s ++ dquote |}.

Definition setAddr (cfg : Config string unit) (a : string) : Config string unit :=
  {| Addr := a; Query := Query cfg; Path := Path cfg; DryRun := DryRun cfg;
     EnableReflection := EnableReflection cfg; parsedQuery := parsedQuery cfg;
     ProtoDescriptor := ProtoDescriptor cfg; protoSet := protoSet cfg;
     GRPCMaxRecvMsgSize := GRPCMaxRecvMsgSize cfg;
     GRPCMaxSendMsgSize := GRPCMaxSendMsgSize cfg;
     SkipRequestBodyParse := SkipRequestBodyParse cfg;
     EnablePerformanceMetrics := EnablePerformanceMetrics cfg |}.

(* ================================================================== *)
(** * Part II. Theorems *)
(* ================================================================== *)

(** ** Path resolution *)

Lemma Split_nonempty (s : string) (sep : ascii) : strings.Split s sep <> [].
Proof.
  destruct s as [|c s]; simpl; [discriminate|].
  destruct (Ascii.eqb c sep); [discriminate|].
  destruct (strings.Split s sep); discriminate.
Qed.

Lemma Split_sep_cons (s : string) (sep : ascii) :
  strings.Split (String sep s) sep = EmptyString :: strings.Split s sep.
Proof. simpl. now rewrite Ascii.eqb_refl. Qed.

(** Splitting around a separator splits both sides. *)
Lemma Split_app (a b : string) (sep : ascii) :
  strings.Split (a ++ String sep b) sep
  = (strings.Split a sep ++ strings.Split b sep)%list.
Proof.
  induction a as [|c a IH]; simpl.
  - now rewrite Ascii.eqb_refl.
  - destruct (Ascii.eqb c sep).
    + now rewrite IH.
    + rewrite IH. pose proof (Split_nonempty a sep) as Hne.
      destruct (strings.Split a sep); [contradiction|reflexivity].
Qed.

Lemma fold_step_app (segs : list string) (r : ast.Ref) :
  fold_left stringPathToRef_step segs r
  = (r ++ map segmentTerm (filter nonEmpty segs))%list.
Proof.
  revert r. induction segs as [|x segs IH]; intros r; simpl.
  - now rewrite app_nil_r.
  - rewrite IH. unfold stringPathToRef_step, nonEmpty, segmentTerm.
    destruct (String.eqb x ""); simpl; [reflexivity|].
    destruct (strconv.Atoi x); now rewrite <- app_assoc.
Qed.

(** The loop of [stringPathToRef] keeps the non-empty segments, in order,
    each turned into its term. *)
Lemma stringPathToRef_segments (s : string) :
  stringPathToRef s = map segmentTerm (filter nonEmpty (strings.Split s "/")).
Proof.
  unfold stringPathToRef. destruct s as [|c s].
  - reflexivity.
  - cbn [String.length Nat.eqb]. now rewrite fold_step_app.
Qed.

Lemma stringPathToRef_leading (s : string) :
  stringPathToRef ("/" ++ s) = stringPathToRef s.
Proof.
  rewrite !stringPathToRef_segments. cbn [append].
  now rewrite Split_sep_cons.
Qed.

Lemma stringPathToRef_trailing (s : string) :
  stringPathToRef (s ++ "/") = stringPathToRef s.
Proof.
  rewrite !stringPathToRef_segments, Split_app, filter_app, map_app.
  simpl. now rewrite app_nil_r.
Qed.

Lemma stringPathToRef_duplicate (a b : string) :
  stringPathToRef (a ++ "//" ++ b) = stringPathToRef (a ++ "/" ++ b).
Proof.
  rewrite !stringPathToRef_segments. cbn [append].
  rewrite !Split_app, Split_sep_cons, !filter_app, !map_app. reflexivity.
Qed.

(** *** Decimal numerals *)

Ltac digit_step :=
  match goal with
  | |- context [strconv.isDigit ?c] => change (strconv.isDigit c) with true
  end;
  match goal with
  | |- context [strconv.digitVal ?c] =>
      let v := eval vm_compute in (strconv.digitVal c) in
      change (strconv.digitVal c) with v
  end;
  cbv iota.

Lemma digits_of_uint_acc (d : Decimal.uint) (acc : positive) :
  strconv.digits (Zpos acc) (NilEmpty.string_of_uint d)
  = Some (Zpos (Pos.of_uint_acc d acc)).
Proof.
  revert acc.
  induction d; intros acc;
    cbn [NilEmpty.string_of_uint strconv.digits Pos.of_uint_acc];
    [reflexivity| ..];
    (digit_step; rewrite <- IHd; f_equal; lia).
Qed.

Lemma digits_of_uint (d : Decimal.uint) :
  strconv.digits 0 (NilEmpty.string_of_uint d) = Some (Z.of_N (Pos.of_uint d)).
Proof.
  induction d; cbn [NilEmpty.string_of_uint strconv.digits Pos.of_uint];
    [reflexivity| ..]; digit_step;
    [exact IHd | ..];
    (cbn [Z.of_N]; rewrite <- digits_of_uint_acc; f_equal).
Qed.

(** A numeral has a first digit and holds digits only. *)
Lemma numeral_shape (d : Decimal.uint) :
  d <> Decimal.Nil ->
  exists c s, NilEmpty.string_of_uint d = String c s /\
              Ascii.eqb c "-" = false /\ Ascii.eqb c "+" = false.
Proof.
  destruct d; [congruence| ..]; intros _; cbn [NilEmpty.string_of_uint];
    do 2 eexists; repeat split.
Qed.

Lemma Atoi_numeral (d : Decimal.uint) :
  d <> Decimal.Nil ->
  Z.of_N (Pos.of_uint d) <= strconv.maxInt ->
  strconv.Atoi (NilEmpty.string_of_uint d) = Some (Z.of_N (Pos.of_uint d)).
Proof.
  intros Hd Hmax. pose proof (digits_of_uint d) as Hdig.
  destruct (numeral_shape Hd) as (c & s & E & Hm & Hp).
  rewrite E in *. unfold strconv.Atoi. rewrite Hm, Hp. cbn [orb].
  rewrite Hdig.
  assert (strconv.minInt <= Z.of_N (Pos.of_uint d))
    by (unfold strconv.minInt; lia).
  replace (_ && _) with true; [reflexivity|].
  symmetry. apply andb_true_iff. split; now apply Z.leb_le.
Qed.

Lemma Atoi_minus_numeral (d : Decimal.uint) :
  d <> Decimal.Nil ->
  strconv.minInt <= - Z.of_N (Pos.of_uint d) ->
  strconv.Atoi (String "-" (NilEmpty.string_of_uint d))
  = Some (- Z.of_N (Pos.of_uint d)).
Proof.
  intros Hd Hmin. pose proof (digits_of_uint d) as Hdig.
  destruct (numeral_shape Hd) as (c & s & E & _).
  unfold strconv.Atoi. cbn [Ascii.eqb Bool.eqb orb].
  rewrite E in *. rewrite Hdig.
  assert (- Z.of_N (Pos.of_uint d) <= strconv.maxInt)
    by (unfold strconv.maxInt; lia).
  replace (_ && _) with true; [reflexivity|].
  symmetry. apply andb_true_iff. split; now apply Z.leb_le.
Qed.

(** [Atoi] reads back what [Itoa] prints, for every [int]. *)
Lemma Atoi_Itoa (i : Z) :
  strconv.minInt <= i <= strconv.maxInt ->
  strconv.Atoi (strconv.Itoa i) = Some i.
Proof.
  intros [Hmin Hmax]. destruct i as [|p|p]; [reflexivity| |];
    unfold strconv.Itoa; cbn [Z.to_int NilZero.string_of_int];
    pose proof (Unsigned.to_uint_nonnil p) as Hnil;
    pose proof (Unsigned.of_to p) as Hof;
    unfold NilZero.string_of_uint;
    destruct (Pos.to_uint p) eqn:E; try congruence; rewrite <- E in *.
  all: try (rewrite Atoi_numeral; rewrite ?Hof; auto; fail).
  all: try (rewrite Atoi_minus_numeral; rewrite ?Hof; auto; fail).
Qed.

Lemma Split_without_separator (s : string) (sep : ascii) :
  ast.allBytes (fun c => negb (Ascii.eqb c sep)) s = true ->
  strings.Split s sep = [s].
Proof.
  induction s as [|c s IH]; cbn; [reflexivity|].
  intros H. apply andb_true_iff in H as [Hc Hs].
  apply negb_true_iff in Hc. now rewrite Hc, IH.
Qed.

Lemma numeral_without_slash (d : Decimal.uint) :
  ast.allBytes (fun c => negb (Ascii.eqb c "/")) (NilEmpty.string_of_uint d) = true.
Proof. induction d; cbn; auto. Qed.

Lemma Itoa_without_slash (i : Z) :
  ast.allBytes (fun c => negb (Ascii.eqb c "/")) (strconv.Itoa i) = true.
Proof.
  destruct i as [|p|p]; [reflexivity| |];
    unfold strconv.Itoa; cbn [Z.to_int NilZero.string_of_int];
    unfold NilZero.string_of_uint;
    destruct (Pos.to_uint p) eqn:E; try reflexivity; rewrite <- E;
    cbn [ast.allBytes Ascii.eqb Bool.eqb negb andb];
    apply numeral_without_slash.
Qed.

(** The text of an [int] resolves to that integer index. *)
Lemma stringPathToRef_Itoa (i : Z) :
  strconv.minInt <= i <= strconv.maxInt ->
  stringPathToRef (strconv.Itoa i) = [ast.IntNumberTerm i].
Proof.
  intros Hi. pose proof (Atoi_Itoa Hi) as HA.
  rewrite stringPathToRef_segments, Split_without_separator
    by apply Itoa_without_slash.
  unfold nonEmpty, segmentTerm. cbn [filter].
  destruct (strconv.Itoa i) eqn:E; [discriminate|].
  cbn [String.eqb negb map]. now rewrite HA.
Qed.

(** C10. Path resolution skips empty segments: a leading, a trailing or a
    doubled slash leaves the resolved reference as it was (so "/foo//bar/"
    resolves as "foo/bar" does); the reference holds one term per non-empty
    segment, in order, an integer index where [strconv.Atoi] accepts the
    segment and a string key otherwise; in particular the decimal text of
    every [int] resolves to that integer index. *)
Theorem stringPathToRef_skips_empty_segments :
  (forall s, stringPathToRef ("/" ++ s) = stringPathToRef s) /\
  (forall s, stringPathToRef (s ++ "/") = stringPathToRef s) /\
  (forall a b, stringPathToRef (a ++ "//" ++ b) = stringPathToRef (a ++ "/" ++ b)) /\
  stringPathToRef "/foo//bar/" = stringPathToRef "foo/bar" /\
  (forall s, stringPathToDataRef s
             = ast.DefaultRootDocument
               :: map (fun x => match strconv.Atoi x with
                                | Some i => ast.IntNumberTerm i
                                | None => ast.StringTerm x
                                end)
                      (filter (fun x => negb (String.eqb x "")) (strings.Split s "/"))) /\
  (forall i, strconv.minInt <= i <= strconv.maxInt ->
             stringPathToRef (strconv.Itoa i) = [ast.IntNumberTerm i]).
Proof.
  split; [exact stringPathToRef_leading|].
  split; [exact stringPathToRef_trailing|].
  split; [exact stringPathToRef_duplicate|].
  split; [reflexivity|].
  split; [|exact stringPathToRef_Itoa].
  intros s. unfold stringPathToDataRef. now rewrite stringPathToRef_segments.
Qed.

Lemma stringPathToRef_skips_empty_segments_witness :
  stringPathToRef "/users//42/" = stringPathToRef "users/42" /\
  stringPathToRef (strconv.Itoa 42) = [ast.IntNumberTerm 42].
Proof.
  destruct stringPathToRef_skips_empty_segments
    as (Hlead & Htrail & Hdup & _ & _ & Hint).
  split.
  - change (stringPathToRef ("/" ++ "users//42/") = stringPathToRef "users/42").
    rewrite Hlead.
    change (stringPathToRef ("users//42" ++ "/") = stringPathToRef "users/42").
    rewrite Htrail. exact (Hdup "users" "42").
  - apply Hint. unfold strconv.minInt, strconv.maxInt. lia.
Defined.

Example stringPathToRef_mixed :
  stringPathToRef "users/12/-3/+4/007/1_0/99999999999999999999"
  = [ast.StringTerm "users"; ast.IntNumberTerm 12; ast.IntNumberTerm (-3);
     ast.IntNumberTerm 4; ast.IntNumberTerm 7; ast.StringTerm "1_0";
     ast.StringTerm "99999999999999999999"].
Proof. reflexivity. Qed.

(** ** Configuration *)

(** The default entry point and the path [foo/bar], as the query text
    [Validate] hands to the parser; no segment needs quoting. *)
Lemma defaultPath_query (quote : string -> string) :
  refString quote (stringPathToDataRef defaultPath) = "data.envoy.authz.allow".
Proof. reflexivity. Qed.

Lemma foo_bar_query (quote : string -> string) :
  refString quote (stringPathToDataRef "foo/bar") = "data.foo.bar".
Proof. reflexivity. Qed.

Section ConfigurationFacts.

Variables Body Files : Type.
Variable Unmarshal : string -> Config Body Files -> Result (Config Body Files).
Variable ParseBody : string -> Result Body.
Variable ReadProtoSet : string -> Result Files.
Variable quote : string -> string.

Local Abbreviation validate := (Validate Unmarshal ParseBody ReadProtoSet quote).
Local Abbreviation resolve := (resolveEntryPoint ParseBody ReadProtoSet quote).

Lemma eqb_empty_false (s : string) : s <> "" -> String.eqb s "" = false.
Proof. intros H. now apply String.eqb_neq. Qed.

(** A configuration that resolves keeps its path and query and holds the
    parse of the text it handed to the parser. *)
Lemma resolve_query (cfg cfg' : Config Body Files) :
  Query cfg <> "" ->
  resolve cfg = inl cfg' ->
  Path cfg' = Path cfg /\ Query cfg' = Query cfg /\
  exists q, ParseBody (Query cfg) = inl q /\ parsedQuery cfg' = Some q.
Proof.
  intros Hq. unfold resolveEntryPoint.
  rewrite (eqb_empty_false Hq). cbn [negb].
  destruct (ParseBody (Query cfg)) as [q|e]; [|discriminate].
  cbn [setParsedQuery ProtoDescriptor].
  destruct (negb (String.eqb (ProtoDescriptor cfg) "")).
  - destruct (ReadProtoSet (ProtoDescriptor cfg)); [|discriminate].
    intros [= <-]. cbn. eauto.
  - intros [= <-]. cbn. eauto.
Qed.

Lemma resolve_path (cfg cfg' : Config Body Files) :
  Query cfg = "" -> Path cfg <> "" ->
  resolve cfg = inl cfg' ->
  Path cfg' = Path cfg /\
  exists q, ParseBody (refString quote (stringPathToDataRef (Path cfg))) = inl q
            /\ parsedQuery cfg' = Some q.
Proof.
  intros Hq Hp. unfold resolveEntryPoint.
  rewrite Hq, (eqb_empty_false Hp). cbn [negb String.eqb].
  destruct (ParseBody _) as [q|e]; [|discriminate].
  cbn [setParsedQuery ProtoDescriptor].
  destruct (negb (String.eqb (ProtoDescriptor cfg) "")).
  - destruct (ReadProtoSet (ProtoDescriptor cfg)); [|discriminate].
    intros [= <-]. cbn. eauto.
  - intros [= <-]. cbn. eauto.
Qed.

Lemma resolve_default (cfg : Config Body Files) :
  Query cfg = "" -> Path cfg = "" ->
  resolve cfg = resolve (setPath cfg defaultPath).
Proof.
  intros Hq Hp. unfold resolveEntryPoint.
  cbn [setPath Query Path]. now rewrite Hq, Hp.
Qed.

(** C8. Validation rejects a configuration that sets both a path and a
    query; with neither set it proceeds as if the path were the built-in
    entry point, and the validated configuration carries that path and the
    parse of [data.envoy.authz.allow]; a configuration with path [foo/bar]
    and one with query [data.foo.bar] hand the parser the same text, so when
    both validate they hold the same parsed entry point. *)
Theorem Validate_entry_point (bs : string) (cfg : Config Body Files) :
  Unmarshal bs (defaultConfig Body Files) = inl cfg ->
  (Path cfg <> "" -> Query cfg <> "" -> validate bs = inr invalidConfig) /\
  (Path cfg = "" -> Query cfg = "" ->
   validate bs = resolve (setPath cfg defaultPath) /\
   forall cfg', validate bs = inl cfg' ->
     Path cfg' = defaultPath /\
     exists q, ParseBody "data.envoy.authz.allow" = inl q
               /\ parsedQuery cfg' = Some q) /\
  (Path cfg = "foo/bar" -> Query cfg = "" ->
   forall bsQ cfgQ,
     Unmarshal bsQ (defaultConfig Body Files) = inl cfgQ ->
     Path cfgQ = "" -> Query cfgQ = "data.foo.bar" ->
     forall c cQ, validate bs = inl c -> validate bsQ = inl cQ ->
       parsedQuery c = parsedQuery cQ /\
       exists q, ParseBody "data.foo.bar" = inl q /\ parsedQuery c = Some q).
Proof.
  intros HU. unfold Validate. rewrite HU.
  split; [|split].
  - intros Hp Hq. now rewrite (eqb_empty_false Hp), (eqb_empty_false Hq).
  - intros Hp Hq. rewrite Hp, Hq. cbn [String.eqb negb andb].
    assert (Hres : resolve cfg = resolve (setPath cfg defaultPath))
      by (now apply resolve_default).
    split; [exact Hres|].
    intros cfg' Hv. rewrite Hres in Hv.
    apply resolve_path in Hv; [|exact Hq|discriminate].
    destruct Hv as (HP & q & Hparse & Hpq).
    cbn [setPath Path] in HP, Hparse. rewrite defaultPath_query in Hparse. eauto.
  - intros Hp Hq bsQ cfgQ HUQ HpQ HqQ c cQ. rewrite HUQ, Hp, Hq, HpQ, HqQ.
    cbn [String.eqb Ascii.eqb Bool.eqb negb andb].
    intros Hc HcQ.
    apply resolve_path in Hc; [|exact Hq|rewrite Hp; discriminate].
    apply resolve_query in HcQ; [|rewrite HqQ; discriminate].
    destruct Hc as (_ & q & Hparse & Hpq).
    destruct HcQ as (_ & _ & q' & Hparse' & Hpq').
    rewrite Hp, foo_bar_query in Hparse. rewrite HqQ in Hparse'.
    rewrite Hparse in Hparse'. injection Hparse' as <-.
    rewrite Hpq, Hpq'. eauto.
Qed.

End ConfigurationFacts.

(** ** Traces *)

Section TraceFacts.

Variables AstValue Transaction : Type.

Local Abbreviation Ev := (Event AstValue Transaction).

Lemma occurrences_app (p : Ev -> bool) (t1 t2 : list Ev) :
  occurrences p (t1 ++ t2) = (occurrences p t1 + occurrences p t2)%nat.
Proof. unfold occurrences. now rewrite filter_app, length_app. Qed.

Lemma quiet_cons (e : Ev) (t : list Ev) :
  quiet (e :: t) <-> isFinalizeEvent e = false /\ quiet t.
Proof.
  unfold quiet. cbn [forallb]. rewrite andb_true_iff, negb_true_iff. tauto.
Qed.

Lemma quiet_occurrences (p : Ev -> bool) (t : list Ev) :
  (forall e, p e = true -> isFinalizeEvent e = true) ->
  quiet t -> occurrences p t = 0%nat.
Proof.
  intros Hp. induction t as [|e t IH]; [reflexivity|].
  rewrite quiet_cons. intros [He Ht]. unfold occurrences. cbn [filter].
  destruct (p e) eqn:E.
  - apply Hp in E. congruence.
  - now apply IH.
Qed.

Lemma quiet_logFailure (t1 t2 : list Ev) :
  quiet t1 -> logFailure (t1 ++ t2) = logFailure t2.
Proof.
  induction t1 as [|e t1 IH]; [reflexivity|].
  rewrite quiet_cons. intros [He Ht]. cbn [app logFailure].
  destruct e as [| | | | |[m|]|i r x [m|]|]; cbn in *; try discriminate; auto.
Qed.

Lemma quiet_closedWith (t1 t2 : list Ev) :
  quiet t1 -> closedWith (t1 ++ t2) = closedWith t2.
Proof.
  induction t1 as [|e t1 IH]; [reflexivity|].
  rewrite quiet_cons. intros [He Ht]. cbn [app closedWith].
  destruct e; cbn in *; try discriminate; auto.
Qed.

Lemma quiet_logged (t1 t2 : list Ev) :
  quiet t1 -> logged (t1 ++ t2) = logged t2.
Proof.
  induction t1 as [|e t1 IH]; [reflexivity|].
  rewrite quiet_cons. intros [He Ht]. cbn [app logged].
  destruct e; cbn in *; try discriminate; auto.
Qed.

Lemma finalizing_acquired (t1 t2 : list Ev) :
  finalizing t2 -> acquired (t1 ++ t2) = acquired t1.
Proof.
  intros H. unfold acquired. rewrite existsb_app.
  replace (existsb _ t2) with false; [apply orb_false_r|].
  symmetry. induction t2 as [|e t2 IH]; [reflexivity|].
  unfold finalizing in H. cbn [forallb] in H. apply andb_true_iff in H as [He Ht].
  cbn [existsb]. rewrite IH by exact Ht. destruct e; cbn in *; congruence.
Qed.

Lemma finalizing_evalFailed (t1 t2 : list Ev) :
  finalizing t2 -> evalFailed (t1 ++ t2) = evalFailed t1.
Proof.
  intros H. unfold evalFailed. rewrite existsb_app.
  replace (existsb _ t2) with false; [apply orb_false_r|].
  symmetry. induction t2 as [|e t2 IH]; [reflexivity|].
  unfold finalizing in H. cbn [forallb] in H. apply andb_true_iff in H as [He Ht].
  cbn [existsb]. rewrite IH by exact Ht. destruct e; cbn in *; congruence.
Qed.

End TraceFacts.

(** ** The protocol version shim *)

Lemma v2Headers_present (hdrs : list (option v3.HeaderValueOption.t)) :
  headersPresent hdrs = true ->
  exists hs, v2Headers hdrs = Some hs /\
             keyValuesV2 hs = keyValuesV3 hdrs /\
             length hs = length hdrs.
Proof.
  induction hdrs as [|hv hdrs IH]; cbn.
  - intros _. exists []. auto.
  - intros H. apply andb_true_iff in H as [Hhv Hrest].
    destruct (IH Hrest) as (hs & -> & Hkv & Hlen).
    destruct (v3.HeaderValueOption.GetHeader hv) as [h|] eqn:E; [|discriminate].
    eexists. split; [reflexivity|].
    unfold keyValuesV2, keyValuesV3 in *. cbn [map length].
    rewrite Hkv, Hlen. cbn. auto.
Qed.

Lemma v2Headers_absent (hdrs : list (option v3.HeaderValueOption.t)) :
  headersPresent hdrs = false -> v2Headers hdrs = None.
Proof.
  induction hdrs as [|hv hdrs IH]; cbn; [discriminate|].
  destruct (v3.HeaderValueOption.GetHeader hv) as [h|]; [|reflexivity].
  cbn. intros H. now rewrite IH.
Qed.

(** The translation panics exactly on the responses that are not
    [translatable]. *)
Lemma v2Response_panics (respV3 : v3.CheckResponse.t) :
  translatable respV3 = false -> v2Response respV3 = None.
Proof.
  unfold translatable, v2Response.
  destruct (v3.CheckResponse.HttpResponse respV3) as [[ok|[d|]]|];
    try discriminate; cbn.
  - intros H. now rewrite v2Headers_absent.
  - intros H. apply andb_false_iff in H as [H|H].
    + now rewrite v2Headers_absent.
    + destruct (v2Headers _); [|reflexivity].
      destruct (v3.DeniedHttpResponse.Status d); [discriminate|reflexivity].
  - reflexivity.
Qed.

(** C7. For a v3 response whose dereferenced fields are set, the v2
    translation carries the same status; on the allow branch a v2 allow
    message whose only content is the headers-to-add list, header by header
    with the same key and value (headers-to-remove and
    response-headers-to-add have no place in it); on the deny branch the
    headers likewise, the body, and the HTTP status with the same code; and no
    branch when the v3 response has none. *)
Theorem v2Response_translation (respV3 : v3.CheckResponse.t) :
  translatable respV3 = true ->
  exists respV2,
    v2Response respV3 = Some respV2 /\
    v2.CheckResponse.Status respV2 = v3.CheckResponse.Status respV3 /\
    match v3.CheckResponse.HttpResponse respV3 with
    | Some (v3.CheckResponse_OkResponse ok) =>
        exists hs,
          v2.CheckResponse.HttpResponse respV2
          = Some (v2.CheckResponse_OkResponse
                    (Some {| v2.OkHttpResponse.Headers := hs |})) /\
          keyValuesV2 hs = keyValuesV3 (v3.OkHttpResponse.GetHeaders ok) /\
          length hs = length (v3.OkHttpResponse.GetHeaders ok)
    | Some (v3.CheckResponse_DeniedResponse denied) =>
        exists d st hs,
          denied = Some d /\ v3.DeniedHttpResponse.Status d = Some st /\
          v2.CheckResponse.HttpResponse respV2
          = Some (v2.CheckResponse_DeniedResponse
                    (Some {| v2.DeniedHttpResponse.Status :=
                               Some {| v2.HttpStatus.Code := v3.HttpStatus.Code st |};
                             v2.DeniedHttpResponse.Headers := hs;
                             v2.DeniedHttpResponse.Body :=
                               v3.DeniedHttpResponse.Body d |})) /\
          keyValuesV2 hs = keyValuesV3 (v3.DeniedHttpResponse.Headers d) /\
          length hs = length (v3.DeniedHttpResponse.Headers d)
    | None => v2.CheckResponse.HttpResponse respV2 = None
    end.
Proof.
  unfold translatable, v2Response.
  destruct (v3.CheckResponse.HttpResponse respV3) as [[ok|[d|]]|];
    try discriminate.
  - intros H. destruct (v2Headers_present _ H) as (hs & -> & Hkv & Hlen).
    eexists. split; [reflexivity|]. cbn. eauto.
  - intros H. apply andb_true_iff in H as [Hh Hst].
    cbn [v3.DeniedHttpResponse.GetHeaders].
    destruct (v2Headers_present _ Hh) as (hs & -> & Hkv & Hlen).
    destruct (v3.DeniedHttpResponse.Status d) as [st|] eqn:Est; [|discriminate].
    eexists. split; [reflexivity|]. cbn. split; [reflexivity|].
    exists d, st, hs. auto.
  - intros _. eexists. split; [reflexivity|]. auto.
Qed.

(** ** The pipeline *)

(** Case analysis on the next collaborator call of the goal, and on the next
    getter call of a hypothesis. *)
Ltac oracle :=
  match goal with
  | |- context [match ?x with _ => _ end] =>
      lazymatch x with
      | NewEvalResult _ => destruct x eqn:?
      | GetTxn _ _ _ => destruct x eqn:?
      | ctxErr _ => destruct x eqn:?
      | RequestToInput _ _ _ _ => destruct x as [? [?|]] eqn:?
      | InterfaceToValue _ _ => destruct x eqn:?
      | Eval _ _ _ _ => destruct x as [? [?|]] eqn:?
      | shape _ _ => destruct x eqn:?
      | EnablePerformanceMetrics _ => destruct x eqn:?
      end
  end.

Ltac getter :=
  match goal with
  | H : context [match ?x with _ => _ end] |- _ =>
      lazymatch x with
      | IsAllowed _ _ => destruct x as [[|]|] eqn:?
      | isMapping _ => destruct x eqn:?
      | GetResponseEnvoyHeaderValueOptions _ _ => destruct x eqn:?
      | GetDynamicMetadata _ _ => destruct x eqn:?
      | GetRequestHTTPHeadersToRemove _ _ => destruct x eqn:?
      | GetResponseHTTPHeadersToAdd _ _ => destruct x eqn:?
      | GetResponseBody _ _ => destruct x eqn:?
      | GetResponseEnvoyHTTPStatus _ _ => destruct x eqn:?
      end
  end.

Section PipelineFacts.

Variables Body Files Request AstValue Transaction : Type.
Variable env : Collaborators Files Request AstValue Transaction.
Variable cfg : Config Body Files.

Local Abbreviation Ev := (Event AstValue Transaction).

(** *** The [stop] closure *)

Lemma log_emission (input : Input) (result : EvalResult AstValue Transaction)
  (err : option error) :
  Emission result err (snd (log env cfg input result err))
                      (fst (log env cfg input result err)).
Proof.
  unfold log. destruct (NDBuiltinCache result) as [cache|].
  - destruct (JSON env cache) as [x|m]; cbn; constructor.
  - cbn. constructor.
Qed.

Lemma runStop_finalize (input : Input) (result : EvalResult AstValue Transaction)
  (err evalErr : option error) :
  exists logErr t,
    Finalization result err evalErr logErr t /\
    runStop env cfg (StopFinalize input result err evalErr) = (stopCode logErr, t).
Proof.
  pose proof (log_emission input result err) as H.
  destruct (log env cfg input result err) as [logErr mid] eqn:E. cbn in H.
  exists logErr. eexists. split; [exists mid; split; [exact H|reflexivity]|].
  unfold runStop, bind, call. rewrite E.
  destruct logErr; cbn; now rewrite ?app_nil_r.
Qed.

(** What a finalization shows in a trace. *)
Lemma Finalization_facts (result : EvalResult AstValue Transaction)
  (err evalErr logErr : option error) (t : list Ev) :
  Finalization result err evalErr logErr t ->
  finalizing t /\ logFailure t = logErr /\
  closedWith t = Some (stopClose logErr evalErr) /\
  occurrences isStopEval t = 1%nat /\
  occurrences isTxnClose t = 1%nat /\
  (occurrences isSinkCall t <= 1)%nat /\
  (forall r e, logged t = Some (r, e) -> r = result /\ e = err) /\
  (occurrences isSinkCall t = 0%nat -> exists m, logErr = Some m).
Proof.
  intros (mid & H & ->). inversion H; subst; cbn.
  - destruct logErr; repeat split; auto; try congruence; intros; discriminate.
  - repeat split; eauto; intros; discriminate.
  - destruct logErr; repeat split; auto; try congruence; intros; discriminate.
Qed.

Lemma Check_unfold (ctx : Context) (req : Request) :
  Check env cfg ctx req
  = let '((resp, stop, err), t1) := check env cfg ctx req in
    let '(code, t2) := runStop env cfg stop in
    ((override resp code, err), (t1 ++ t2)%list).
Proof.
  unfold Check, bind, ret, override.
  destruct (check env cfg ctx req) as [[[resp stop] err] t1].
  destruct (runStop env cfg stop) as [code t2]. now rewrite app_nil_r.
Qed.

Lemma CheckV2_trace (ctx : Context) (req : Request) :
  snd (CheckV2 env cfg ctx req) = snd (Check env cfg ctx req).
Proof.
  unfold CheckV2, Check, bind, ret.
  destruct (check env cfg ctx req) as [[[resp stop] err] t1].
  destruct (CheckV2_body resp err) as [[returned respV2] heap].
  destruct (runStop env cfg stop) as [code t2]. reflexivity.
Qed.

(** *** What [check] hands back *)

Lemma check_anatomy (ctx : Context) (req : Request) :
  let '((resp, stop, err), t) := check env cfg ctx req in
  quiet t /\
  match stop with
  | StopNoop =>
      acquired t = false /\ evalFailed t = false /\ resp = None /\
      exists e, err = Some e /\
                (In (ENewEvalResult (Some e)) t \/ In (EGetTxn (Some e)) t)
  | StopFinalize input result e ev =>
      acquired t = true /\ evalFailed t = isSet ev /\
      match resp with
      | Some r =>
          err = None /\ e = None /\ ev = None /\
          exists shaped, shape env result = Shaped shaped
                         /\ r = dryRunOverride cfg shaped
      | None => err <> None
      end
  end.
Proof.
  unfold check, evaluate, respond, bind, call, ret.
  repeat (oracle; cbn); repeat split; eauto 8; discriminate.
Qed.

(** *** A whole call

    Either the call never acquired a transaction, and then nothing of the
    [stop] closure runs; or it did, and its trace is the quiet trace of
    [check] followed by one finalization. *)
Lemma Check_anatomy (ctx : Context) (req : Request) :
  (exists e t,
      check env cfg ctx req = ((None, StopNoop, Some e), t) /\
      Check env cfg ctx req = ((None, Some e), t) /\
      quiet t /\ acquired t = false /\ evalFailed t = false /\
      (In (ENewEvalResult (Some e)) t \/ In (EGetTxn (Some e)) t))
  \/
  (exists resp input result err evalErr returned pre logErr fin,
      check env cfg ctx req
      = ((resp, StopFinalize input result err evalErr, returned), pre) /\
      Check env cfg ctx req
      = ((override resp (stopCode logErr), returned), (pre ++ fin)%list) /\
      quiet pre /\ acquired pre = true /\ evalFailed pre = isSet evalErr /\
      Finalization result err evalErr logErr fin /\
      match resp with
      | Some r =>
          returned = None /\ err = None /\ evalErr = None /\
          exists shaped, shape env result = Shaped shaped
                         /\ r = dryRunOverride cfg shaped
      | None => returned <> None
      end).
Proof.
  pose proof (check_anatomy ctx req) as H. rewrite Check_unfold.
  destruct (check env cfg ctx req) as [[[resp stop] returned] pre].
  destruct H as [Hq H]. destruct stop as [|input result err evalErr].
  - left. destruct H as (Ha & He & -> & e & -> & Hin).
    exists e, pre. cbn. rewrite app_nil_r. auto 8.
  - right. destruct H as (Ha & He & Hr).
    destruct (runStop_finalize input result err evalErr) as (logErr & fin & Hfin & ->).
    exists resp, input, result, err, evalErr, returned, pre, logErr, fin. auto 10.
Qed.

Lemma CheckV2_not_acquired (ctx : Context) (req : Request) (e : error)
  (t : list Ev) :
  check env cfg ctx req = ((None, StopNoop, Some e), t) ->
  fst (CheckV2 env cfg ctx req) = Some (None, Some e).
Proof. intros H. unfold CheckV2, bind. now rewrite H. Qed.

(** The translation does not look at the status. *)
Lemma v2Response_setStatus (r : v3.CheckResponse.t) (c : rpc_status.Status) :
  v2Response (setStatus r c) = option_map (setStatusV2 c) (v2Response r).
Proof.
  unfold v2Response, setStatus. cbn.
  destruct (v3.CheckResponse.HttpResponse r) as [[ok|d]|]; cbn.
  - now destruct (v2Headers _).
  - destruct (v2Headers _), d as [d|]; cbn; try reflexivity.
    now destruct (v2Status _).
  - reflexivity.
Qed.

(** The v2 entry point answers the translation of what the v3 entry point
    answers (a panic where the translation panics): the write of the
    deferred function through [respV2] reaches the returned response. *)
Lemma CheckV2_translates_Check (ctx : Context) (req : Request) :
  fst (CheckV2 env cfg ctx req)
  = match fst (Check env cfg ctx req) with
    | (Some r, e) => option_map (fun r2 => (Some r2, e)) (v2Response r)
    | (None, e) => Some (None, e)
    end.
Proof.
  pose proof (check_anatomy ctx req) as H.
  unfold CheckV2, Check, bind, ret.
  destruct (check env cfg ctx req) as [[[resp stop] err] t1].
  destruct H as [_ H].
  destruct stop as [|input result e ev].
  - destruct H as (_ & _ & -> & x & -> & _). reflexivity.
  - destruct H as (_ & _ & H).
    destruct (runStop env cfg (StopFinalize input result e ev)) as [c t2].
    destruct resp as [r|]; cbn.
    + destruct H as (-> & _). unfold CheckV2_body.
      destruct c as [c|].
      * rewrite v2Response_setStatus. now destruct (v2Response r).
      * now destruct (v2Response r).
    + destruct err as [x|]; [|contradiction]. now destruct c.
Qed.

(** A getter failing after the dynamic-metadata extraction was declared:
    the caller gets the wrapped error, the variable the [stop] closure reads
    is nil, so the audit sink is handed no error. *)
Lemma shaping_error_not_logged (result : EvalResult AstValue Transaction)
  (allowed : bool) (hdrs : list (option v3.HeaderValueOption.t)) (e : error) :
  IsAllowed env result = inl allowed ->
  isMapping (Decision result) = true ->
  GetResponseEnvoyHeaderValueOptions env result = inl hdrs ->
  GetDynamicMetadata env result = inr e ->
  shape env result = ShapingFailed None (Wrap e "failed to get dynamic metadata").
Proof. intros Ha Hm Hh Hd. unfold shape. now rewrite Ha, Hm, Hh, Hd. Qed.

(** With such getters every response [check] builds can be translated, so
    the v2 entry point does not panic. *)
Lemma shaped_translatable (result : EvalResult AstValue Transaction)
  (resp : v3.CheckResponse.t) :
  settledGetters env -> shape env result = Shaped resp -> translatable resp = true.
Proof.
  intros [Hh Hs] H. unfold shape in H.
  repeat (getter; cbn in H); try discriminate; injection H as <-; cbn;
    rewrite ?andb_true_iff; eauto.
Qed.

Lemma dryRunOverride_translatable (resp : v3.CheckResponse.t) :
  translatable resp = true -> translatable (dryRunOverride cfg resp) = true.
Proof.
  intros H. unfold dryRunOverride.
  destruct (DryRun cfg); [|exact H].
  destruct (statusCode resp) as [c|]; [|exact H].
  destruct (negb (c =? code.Code_OK)); [reflexivity|exact H].
Qed.

Lemma CheckV2_no_panic (ctx : Context) (req : Request) :
  settledGetters env -> fst (CheckV2 env cfg ctx req) <> None.
Proof.
  intros Hg. rewrite CheckV2_translates_Check.
  destruct (Check_anatomy ctx req)
    as [(e & t & _ & -> & _)
       |(resp & input & result & err & evalErr & returned & pre & logErr & fin
         & _ & -> & _ & _ & _ & _ & Hr)]; cbn [fst]; [discriminate|].
  destruct resp as [r|]; cbn; [|discriminate].
  destruct Hr as (_ & _ & _ & shaped & Hs & ->).
  assert (Ht : translatable (dryRunOverride cfg shaped) = true)
    by (apply dryRunOverride_translatable; now apply shaped_translatable with (result := result)).
  assert (Hv : forall r', translatable r' = true -> v2Response r' <> None).
  { intros r' Hr' Hn. destruct (translatable r') eqn:E; [|discriminate].
    clear Hr'. revert E Hn. unfold translatable, v2Response.
    destruct (v3.CheckResponse.HttpResponse r') as [[ok|[d|]]|];
      try discriminate.
    - intros E. destruct (v2Headers_present _ E) as (hs & -> & _). discriminate.
    - intros E. apply andb_true_iff in E as [Eh Es]. cbn.
      destruct (v2Headers_present _ Eh) as (hs & -> & _).
      destruct (v3.DeniedHttpResponse.Status d); discriminate. }
  destruct logErr as [m|]; cbn.
  - rewrite v2Response_setStatus.
    destruct (v2Response (dryRunOverride cfg shaped)) eqn:E; [discriminate|].
    now apply Hv in E.
  - destruct (v2Response (dryRunOverride cfg shaped)) eqn:E; [discriminate|].
    now apply Hv in E.
Qed.

(** C2. Both entry points leave the same trace.  The finalize routine runs
    exactly once if and only if the call acquired a storage transaction, and
    then the trace is a quiet part followed by one finalization (metrics
    stopped, audit-log emission, transaction close, in this order: one close,
    at most one sink call).  A call that fails at the start of the evaluation
    context or at the acquisition returns that error with no response, and
    its trace holds no call of the sink or of the closer. *)
Theorem finalize_once_iff_acquired (ctx : Context) (req : Request) :
  let out := fst (Check env cfg ctx req) in
  let t := snd (Check env cfg ctx req) in
  snd (CheckV2 env cfg ctx req) = t /\
  (occurrences isStopEval t = 1%nat <-> acquired t = true) /\
  (acquired t = true ->
   occurrences isStopEval t = 1%nat /\
   occurrences isTxnClose t = 1%nat /\
   (occurrences isSinkCall t <= 1)%nat /\
   exists pre fin result err evalErr logErr,
     t = (pre ++ fin)%list /\ quiet pre /\
     Finalization result err evalErr logErr fin) /\
  (acquired t = false ->
   occurrences isStopEval t = 0%nat /\
   occurrences isSinkCall t = 0%nat /\
   occurrences isTxnClose t = 0%nat /\
   exists e,
     out = (None, Some e) /\
     fst (CheckV2 env cfg ctx req) = Some (None, Some e) /\
     (In (ENewEvalResult (Some e)) t \/ In (EGetTxn (Some e)) t)).
Proof.
  cbv zeta. split; [apply CheckV2_trace|].
  destruct (Check_anatomy ctx req)
    as [(e & t & Hc & -> & Hq & Ha & _ & Hin)
       |(resp & input & result & err & evalErr & returned & pre & logErr & fin
         & Hc & -> & Hq & Ha & _ & Hfin & _)]; cbn [fst snd].
  - assert (Hz : forall p : Ev -> bool,
               (forall e, p e = true -> isFinalizeEvent e = true) ->
               occurrences p t = 0%nat)
      by (intros p Hp; now apply quiet_occurrences).
    rewrite Ha, !Hz by (intros [] ; cbn; congruence).
    repeat split; try discriminate.
    exists e. repeat split; auto. now apply CheckV2_not_acquired with (t := t).
  - destruct (Finalization_facts Hfin) as (Hf & _ & _ & H1 & H2 & H3 & _).
    rewrite finalizing_acquired, Ha by exact Hf.
    rewrite !occurrences_app, H1, H2.
    assert (Hz : forall p : Ev -> bool,
               (forall e, p e = true -> isFinalizeEvent e = true) ->
               occurrences p pre = 0%nat)
      by (intros p Hp; now apply quiet_occurrences).
    rewrite !Hz by (intros [] ; cbn; congruence).
    repeat split; auto; try discriminate.
    exists pre, fin, result, err, evalErr, logErr. auto.
Qed.

(** C1 (amended). When the audit-log emission of a call fails and the call
    returns a response, the returned response's status is UNKNOWN with the
    logging error's text as its message, whatever status [check] had given it
    (the rest of the response is untouched); when the call returns no response
    it returns its own error, and the logging error is not reported. *)
Theorem logging_failure_overrides_status (ctx : Context) (req : Request)
  (resp : option v3.CheckResponse.t) (err : option error) (t : list Ev)
  (m : error) :
  Check env cfg ctx req = ((resp, err), t) ->
  logFailure t = Some m ->
  let unknown := {| rpc_status.Code := code.Code_UNKNOWN; rpc_status.Message := m |} in
  (forall r, resp = Some r -> v3.CheckResponse.Status r = Some unknown) /\
  (resp = None <-> err <> None) /\
  exists resp0 stop t0,
    check env cfg ctx req = ((resp0, stop, err), t0) /\
    resp = option_map (fun r => setStatus r unknown) resp0.
Proof.
  intros HC HL unknown.
  destruct (Check_anatomy ctx req)
    as [(e & t' & Hc & HC' & Hq & _)
       |(resp0 & input & result & e & evalErr & returned & pre & logErr & fin
         & Hc & HC' & Hq & _ & _ & Hfin & Hr)];
    rewrite HC in HC'; injection HC' as -> -> ->.
  - rewrite <- (app_nil_r t'), quiet_logFailure in HL by exact Hq. discriminate.
  - destruct (Finalization_facts Hfin) as (_ & Hlf & _).
    rewrite quiet_logFailure, Hlf in HL by exact Hq. subst logErr.
    destruct resp0 as [r0|]; cbn.
    + destruct Hr as (-> & _). repeat split; try discriminate.
      * now intros r [= <-].
      * intros; congruence.
      * eauto.
    + repeat split; auto; try discriminate. eauto.
Qed.

(** C3 (amended). A call that reaches finalization closes its transaction
    exactly once.  When the audit log was written, the closer is handed the
    evaluation error: it aborts exactly when the evaluation step failed and
    commits otherwise, also when a later step failed.  When the emission
    failed, the closer is handed the logging error, so it aborts. *)
Theorem transaction_close_mode (ctx : Context) (req : Request) :
  let t := snd (Check env cfg ctx req) in
  acquired t = true ->
  occurrences isTxnClose t = 1%nat /\
  exists c, closedWith t = Some c /\
    match logFailure t with
    | Some m => c = Some m /\ closeMode c = Abort
    | None => closeMode c = if evalFailed t then Abort else Commit
    end.
Proof.
  cbv zeta.
  destruct (Check_anatomy ctx req)
    as [(e & t & Hc & -> & Hq & Ha & _)
       |(resp & input & result & err & evalErr & returned & pre & logErr & fin
         & Hc & -> & Hq & Ha & He & Hfin & _)]; cbn [fst snd].
  - rewrite Ha. discriminate.
  - intros _.
    destruct (Finalization_facts Hfin) as (Hf & Hlf & Hcw & _ & H2 & _).
    rewrite occurrences_app, H2, quiet_closedWith, quiet_logFailure,
      finalizing_evalFailed, Hcw, Hlf, He by assumption.
    rewrite (@quiet_occurrences _ _ isTxnClose pre)
      by (auto; intros []; cbn; congruence).
    split; [reflexivity|]. eexists; split; [reflexivity|].
    destruct logErr, evalErr; cbn; auto.
Qed.

(** *** Response shaping *)

(** C5 (amended). A shaped response carries the base status of the allow
    bit.  For a mapping decision it populates exactly one branch, the allow
    branch when the base status is OK and the deny branch otherwise; for any
    other decision it populates none. *)
Theorem shaped_branch_by_base_status (result : EvalResult AstValue Transaction)
  (resp : v3.CheckResponse.t) :
  shape env result = Shaped resp ->
  exists allowed,
    IsAllowed env result = inl allowed /\
    v3.CheckResponse.Status resp = statusOf (baseStatus allowed) /\
    if isMapping (Decision result)
    then branchesPopulated resp = 1%nat /\
         isSet (GetOkResponse resp) = allowed /\
         isSet (GetDeniedResponse resp) = negb allowed
    else branchesPopulated resp = 0%nat /\
         v3.CheckResponse.HttpResponse resp = None.
Proof.
  unfold shape. intros H.
  repeat (getter; cbn in H); try discriminate; injection H as <-;
    eexists; (split; [reflexivity|]); cbn; auto.
Qed.

(** C6 (amended). For a decision that is no mapping, the shaped response is
    the base status alone: no branch, no dynamic metadata.  [check] returns
    it as it is, unless dry-run is configured and the decision denies: then
    the returned status is OK and the branch is the empty allow-branch, still
    without header, body or dynamic metadata. *)
Theorem non_mapping_status_only (ctx : Context) (req : Request)
  (resp : v3.CheckResponse.t) (input : Input)
  (result : EvalResult AstValue Transaction) (err evalErr returned : option error)
  (t : list Ev) :
  check env cfg ctx req
  = ((Some resp, StopFinalize input result err evalErr, returned), t) ->
  isMapping (Decision result) = false ->
  exists allowed,
    IsAllowed env result = inl allowed /\
    shape env result = Shaped (statusOnly (baseStatus allowed)) /\
    resp = (if DryRun cfg && negb allowed
            then {| v3.CheckResponse.Status := statusOf code.Code_OK;
                    v3.CheckResponse.HttpResponse := emptyAllowBranch;
                    v3.CheckResponse.DynamicMetadata := None |}
            else statusOnly (baseStatus allowed)).
Proof.
  intros Hc Hm. pose proof (check_anatomy ctx req) as H. rewrite Hc in H.
  destruct H as (_ & _ & _ & _ & _ & _ & shaped & Hs & ->).
  unfold shape in Hs. rewrite Hm in Hs.
  destruct (IsAllowed env result) as [allowed|] eqn:Ha; [|discriminate].
  injection Hs as <-. exists allowed. split; [reflexivity|].
  unfold shape. rewrite Ha, Hm. split; [reflexivity|].
  unfold dryRunOverride. destruct (DryRun cfg), allowed; reflexivity.
Qed.

End PipelineFacts.

(** *** Dry-run *)

Section DryRunFacts.

Variables Body Files Request AstValue Transaction : Type.
Variable env : Collaborators Files Request AstValue Transaction.
Variable cfg : Config Body Files.

Local Abbreviation Ev := (Event AstValue Transaction).

(** The dry-run flag changes the response of [check] and nothing else: the
    closure, the returned error and the trace are those of the same call
    with the flag cleared. *)
Lemma check_setDryRun (b : bool) (ctx : Context) (req : Request) :
  let '((resp, stop, err), t) := check env cfg ctx req in
  let '((resp', stop', err'), t') := check env (setDryRun cfg b) ctx req in
  stop' = stop /\ err' = err /\ t' = t.
Proof.
  unfold check, evaluate, respond, bind, call, ret.
  cbn [setDryRun protoSet SkipRequestBodyParse EnablePerformanceMetrics].
  repeat (oracle; cbn); auto.
Qed.

Lemma runStop_setDryRun (b : bool) (stop : StopClosure AstValue Transaction) :
  runStop env (setDryRun cfg b) stop = runStop env cfg stop.
Proof. reflexivity. Qed.

Lemma Check_setDryRun_trace (b : bool) (ctx : Context) (req : Request) :
  snd (Check env (setDryRun cfg b) ctx req) = snd (Check env cfg ctx req).
Proof.
  rewrite !Check_unfold. pose proof (check_setDryRun b ctx req) as H.
  destruct (check env cfg ctx req) as [[[resp stop] err] t].
  destruct (check env (setDryRun cfg b) ctx req) as [[[resp' stop'] err'] t'].
  destruct H as (-> & -> & ->). rewrite runStop_setDryRun.
  now destruct (runStop env cfg stop).
Qed.

(** When the override fires it sets the status and the branch and keeps the
    dynamic metadata. *)
Lemma dryRunOverride_fires (shaped : v3.CheckResponse.t) (c : Z) :
  DryRun cfg = true ->
  statusCode shaped = Some c -> c <> code.Code_OK ->
  dryRunOverride cfg shaped
  = {| v3.CheckResponse.Status := statusOf code.Code_OK;
       v3.CheckResponse.HttpResponse := emptyAllowBranch;
       v3.CheckResponse.DynamicMetadata := v3.CheckResponse.DynamicMetadata shaped |}.
Proof.
  intros Hd Hs Hc. unfold dryRunOverride. rewrite Hd, Hs.
  apply Z.eqb_neq in Hc. now rewrite Hc.
Qed.

(** A call whose response the dry-run override rewrote. *)
Lemma dry_run_call (ctx : Context) (req : Request)
  (resp0 shaped : v3.CheckResponse.t) (input : Input)
  (result : EvalResult AstValue Transaction) (err evalErr returned : option error)
  (t0 : list Ev) (c : Z) :
  DryRun cfg = true ->
  check env cfg ctx req
  = ((Some resp0, StopFinalize input result err evalErr, returned), t0) ->
  shape env result = Shaped shaped ->
  statusCode shaped = Some c -> c <> code.Code_OK ->
  resp0 = {| v3.CheckResponse.Status := statusOf code.Code_OK;
             v3.CheckResponse.HttpResponse := emptyAllowBranch;
             v3.CheckResponse.DynamicMetadata :=
               v3.CheckResponse.DynamicMetadata shaped |} /\
  exists logErr fin,
    Finalization result None None logErr fin /\ quiet t0 /\
    Check env cfg ctx req = ((override (Some resp0) (stopCode logErr), None),
                             (t0 ++ fin)%list).
Proof.
  intros Hd Hc Hs Hcode Hne.
  pose proof (check_anatomy env cfg ctx req) as H. rewrite Hc in H.
  destruct H as (Hq & _ & _ & -> & -> & -> & shaped' & Hs' & ->).
  rewrite Hs in Hs'. injection Hs' as <-.
  split; [now apply dryRunOverride_fires with (c := c)|].
  rewrite Check_unfold, Hc.
  destruct (runStop_finalize env cfg input result None None)
    as (logErr & fin & Hfin & ->).
  exists logErr, fin. auto.
Qed.

(** C4 (amended). With dry-run configured and a shaped status other than OK,
    [check] returns status OK and the empty allow-branch.  The call returns
    that response when the audit log is written; when the emission fails the
    returned status is UNKNOWN with the logging error's text, the branch
    still being the empty allow-branch.  The audit sink is handed the
    evaluation result and a nil error, and the whole trace of the call is the
    one the same call leaves without dry-run. *)
Theorem dry_run_forces_allow (ctx : Context) (req : Request)
  (resp0 shaped : v3.CheckResponse.t) (input : Input)
  (result : EvalResult AstValue Transaction) (err evalErr returned : option error)
  (t0 : list Ev) (c : Z) :
  DryRun cfg = true ->
  check env cfg ctx req
  = ((Some resp0, StopFinalize input result err evalErr, returned), t0) ->
  shape env result = Shaped shaped ->
  statusCode shaped = Some c -> c <> code.Code_OK ->
  resp0 = {| v3.CheckResponse.Status := statusOf code.Code_OK;
             v3.CheckResponse.HttpResponse := emptyAllowBranch;
             v3.CheckResponse.DynamicMetadata :=
               v3.CheckResponse.DynamicMetadata shaped |} /\
  let t := snd (Check env cfg ctx req) in
  fst (Check env cfg ctx req)
  = (match logFailure t with
     | None => Some resp0
     | Some m =>
         Some (setStatus resp0 {| rpc_status.Code := code.Code_UNKNOWN;
                                  rpc_status.Message := m |})
     end, None) /\
  (forall r e, logged t = Some (r, e) -> r = result /\ e = None) /\
  t = snd (Check env (setDryRun cfg false) ctx req).
Proof.
  intros Hd Hc Hs Hcode Hne.
  destruct (dry_run_call ctx req Hd Hc Hs Hcode Hne)
    as (-> & logErr & fin & Hfin & Hq & HC).
  split; [reflexivity|]. cbv zeta. rewrite Check_setDryRun_trace, HC.
  destruct (Finalization_facts Hfin) as (_ & Hlf & _ & _ & _ & _ & Hlog & _).
  cbn [fst snd]. rewrite quiet_logFailure, quiet_logged, Hlf by exact Hq.
  split; [now destruct logErr|]. split; [exact Hlog|reflexivity].
Qed.

(** C9. When the dry-run override fires it rewrites the status and the
    branch only: the response [check] returns, and the one the call returns
    whether or not the audit log is written, carry the dynamic metadata of
    the shaped response, which for a mapping decision is what
    [GetDynamicMetadata] read from the decision. *)
Theorem dry_run_keeps_dynamic_metadata (ctx : Context) (req : Request)
  (resp0 shaped : v3.CheckResponse.t) (input : Input)
  (result : EvalResult AstValue Transaction) (err evalErr returned : option error)
  (t0 : list Ev) (c : Z) :
  DryRun cfg = true ->
  check env cfg ctx req
  = ((Some resp0, StopFinalize input result err evalErr, returned), t0) ->
  shape env result = Shaped shaped ->
  statusCode shaped = Some c -> c <> code.Code_OK ->
  v3.CheckResponse.DynamicMetadata resp0 = v3.CheckResponse.DynamicMetadata shaped /\
  (isMapping (Decision result) = true ->
   GetDynamicMetadata env result = inl (v3.CheckResponse.DynamicMetadata shaped)) /\
  exists r, fst (fst (Check env cfg ctx req)) = Some r /\
            v3.CheckResponse.DynamicMetadata r
            = v3.CheckResponse.DynamicMetadata shaped /\
            v3.CheckResponse.HttpResponse r = emptyAllowBranch.
Proof.
  intros Hd Hc Hs Hcode Hne.
  destruct (dry_run_call ctx req Hd Hc Hs Hcode Hne)
    as (-> & logErr & fin & _ & _ & ->).
  split; [reflexivity|]. split.
  - intros Hm. unfold shape in Hs. rewrite Hm in Hs.
    repeat (getter; cbn in Hs); try discriminate; now injection Hs as <-.
  - destruct logErr; eexists; cbn; auto.
Qed.

End DryRunFacts.

(** ** Concrete calls *)

(** C1, as stated, fails: the deadline has expired before the query runs and
    the audit sink is down.  The emission fails, yet the call returns no
    response, hence no UNKNOWN status carrying the logging error; what it
    returns is the time-out error. *)
Lemma logging_failure_without_response :
  let call := Check (demoEnv (sinkDown (ABool true))) (demoConfig false)
                    expired "/a" in
  logFailure (snd call) = Some "audit sink unavailable" /\
  fst call = (None,
              Some "check request timed out before query execution: context deadline exceeded") /\
  ~ (forall (Body Files Request AstValue Transaction : Type)
            (env : Collaborators Files Request AstValue Transaction)
            (cfg : Config Body Files) (ctx : Context) (req : Request)
            resp err t m,
        Check env cfg ctx req = ((resp, err), t) ->
        logFailure t = Some m ->
        exists r, resp = Some r /\
                  v3.CheckResponse.Status r
                  = Some {| rpc_status.Code := code.Code_UNKNOWN;
                            rpc_status.Message := m |}).
Proof.
  cbv zeta. split; [reflexivity|]. split; [reflexivity|].
  intros H.
  destruct (H _ _ _ _ _ (demoEnv (sinkDown (ABool true))) (demoConfig false)
              expired "/a" _ _ _ _ eq_refl eq_refl) as (r & Hr & _).
  discriminate.
Qed.

Lemma logging_failure_overrides_status_witness :
  exists r,
    fst (fst (Check (demoEnv (sinkDown (ABool true))) (demoConfig false)
                    background "/a")) = Some r /\
    v3.CheckResponse.Status r = Some sinkUnknown.
Proof.
  destruct (@logging_failure_overrides_status _ _ _ _ _
              (demoEnv (sinkDown (ABool true))) (demoConfig false)
              background "/a" _ _ _ _ eq_refl eq_refl) as (H & _).
  eexists. split; [reflexivity|]. apply H. reflexivity.
Defined.

Lemma finalize_once_iff_acquired_witness :
  occurrences isStopEval
    (snd (Check (demoEnv (healthy (ABool true))) (demoConfig false) background "/a"))
  = 1%nat /\
  occurrences isTxnClose
    (snd (Check (demoEnv storeDown) (demoConfig false) background "/a"))
  = 0%nat.
Proof.
  destruct (finalize_once_iff_acquired (demoEnv (healthy (ABool true)))
              (demoConfig false) background "/a") as (_ & _ & H1 & _).
  destruct (finalize_once_iff_acquired (demoEnv storeDown)
              (demoConfig false) background "/a") as (_ & _ & _ & H0).
  split.
  - apply H1. reflexivity.
  - apply H0. reflexivity.
Defined.

(** C3, as stated, fails: evaluation succeeds and the audit sink is down.
    The closer is handed the logging error, so the transaction is aborted
    although the evaluation step did not fail. *)
Lemma abort_without_evaluation_failure :
  let t := snd (Check (demoEnv (sinkDown (ABool true))) (demoConfig false)
                      background "/a") in
  acquired t = true /\ evalFailed t = false /\
  closedWith t = Some (Some "audit sink unavailable") /\
  closeMode (Some "audit sink unavailable") = Abort /\
  ~ (forall (Body Files Request AstValue Transaction : Type)
            (env : Collaborators Files Request AstValue Transaction)
            (cfg : Config Body Files) (ctx : Context) (req : Request) c,
        let t := snd (Check env cfg ctx req) in
        closedWith t = Some c ->
        (closeMode c = Abort <-> evalFailed t = true)).
Proof.
  cbv zeta. repeat (split; [reflexivity|]).
  intros H.
  destruct (H _ _ _ _ _ (demoEnv (sinkDown (ABool true))) (demoConfig false)
              background "/a" _ eq_refl) as (H1 & _).
  specialize (H1 eq_refl). discriminate.
Qed.

(** Three calls that reach finalization with the audit log written:
    evaluation fails (abort), shaping fails after a successful evaluation
    (commit), and all succeeds (commit). *)
Lemma transaction_close_mode_witness :
  closedWith (snd (Check (demoEnv evalDown) (demoConfig false) background "/a"))
  = Some (Some "policy evaluation failed") /\
  (exists c,
      closedWith (snd (Check (demoEnv (healthy (ANumber "3"))) (demoConfig false)
                             background "/a")) = Some c /\
      closeMode c = Commit) /\
  (exists c,
      closedWith (snd (Check (demoEnv (healthy (ABool true))) (demoConfig false)
                             background "/a")) = Some c /\
      closeMode c = Commit).
Proof.
  split; [reflexivity|]. split.
  - destruct (transaction_close_mode (demoEnv (healthy (ANumber "3")))
                (demoConfig false) background "/a" eq_refl) as (_ & c & Hc & Hm).
    exists c. split; [exact Hc|exact Hm].
  - destruct (transaction_close_mode (demoEnv (healthy (ABool true)))
                (demoConfig false) background "/a" eq_refl) as (_ & c & Hc & Hm).
    exists c. split; [exact Hc|exact Hm].
Defined.

(** C4, as stated, fails: dry-run is configured, the policy denies and the
    audit sink is down.  The shaped status is PERMISSION_DENIED and [check]
    forces it to OK, but the call returns status UNKNOWN with the logging
    error's text (over the empty allow-branch). *)
Lemma dry_run_with_failing_sink :
  let env := demoEnv (sinkDown (ABool false)) in
  shape env (decided (ABool false)) = Shaped (statusOnly code.Code_PERMISSION_DENIED) /\
  fst (fst (check env (demoConfig true) background "/a"))
  = (Some forcedAllow,
     StopFinalize [("path", AString "/a")] (decided (ABool false)) None None) /\
  fst (Check env (demoConfig true) background "/a")
  = (Some (setStatus forcedAllow sinkUnknown), None) /\
  ~ (forall (Body Files Request AstValue Transaction : Type)
            (env : Collaborators Files Request AstValue Transaction)
            (cfg : Config Body Files) (ctx : Context) (req : Request)
            resp0 shaped input result err evalErr returned t0 c,
        DryRun cfg = true ->
        check env cfg ctx req
        = ((Some resp0, StopFinalize input result err evalErr, returned), t0) ->
        shape env result = Shaped shaped ->
        statusCode shaped = Some c -> c <> code.Code_OK ->
        exists r, fst (fst (Check env cfg ctx req)) = Some r /\
                  v3.CheckResponse.Status r = statusOf code.Code_OK /\
                  v3.CheckResponse.HttpResponse r = emptyAllowBranch).
Proof.
  cbv zeta. repeat (split; [reflexivity|]).
  intros H.
  destruct (H _ _ _ _ _ (demoEnv (sinkDown (ABool false))) (demoConfig true)
              background "/a" _ _ _ _ _ _ _ _ code.Code_PERMISSION_DENIED
              eq_refl eq_refl eq_refl eq_refl)
    as (r & Hr & Hs & _); [discriminate|].
  injection Hr as <-. discriminate.
Qed.

Lemma dry_run_forces_allow_witness :
  let env := demoEnv (healthy (ABool false)) in
  fst (Check env (demoConfig true) background "/a") = (Some forcedAllow, None) /\
  logged (snd (Check env (demoConfig true) background "/a"))
  = Some (decided (ABool false), None) /\
  snd (Check env (demoConfig true) background "/a")
  = snd (Check env (demoConfig false) background "/a").
Proof.
  cbv zeta.
  destruct (@dry_run_forces_allow _ _ _ _ _ (demoEnv (healthy (ABool false)))
              (demoConfig true) background "/a" _ _ _ _ _ _ _ _
              code.Code_PERMISSION_DENIED eq_refl eq_refl eq_refl eq_refl)
    as (_ & HC & _ & Ht); [discriminate|].
  split; [exact HC|]. split; [reflexivity|exact Ht].
Defined.

(** C5, as stated, fails: for the plain decision [true] the call returns
    status OK and populates neither branch. *)
Lemma boolean_decision_populates_no_branch :
  let call := Check (demoEnv (healthy (ABool true))) (demoConfig false)
                    background "/a" in
  fst call = (Some (statusOnly code.Code_OK), None) /\
  branchesPopulated (statusOnly code.Code_OK) = 0%nat /\
  ~ (forall (Body Files Request AstValue Transaction : Type)
            (env : Collaborators Files Request AstValue Transaction)
            (cfg : Config Body Files) (ctx : Context) (req : Request)
            resp err t,
        Check env cfg ctx req = ((Some resp, err), t) ->
        branchesPopulated resp = 1%nat).
Proof.
  cbv zeta. repeat (split; [reflexivity|]).
  intros H.
  specialize (H _ _ _ _ _ (demoEnv (healthy (ABool true))) (demoConfig false)
                background "/a" _ _ _ eq_refl).
  discriminate.
Qed.

Lemma shaped_branch_by_base_status_witness :
  exists resp,
    shape (demoEnv (healthy denyWithMetadata)) (decided denyWithMetadata)
    = Shaped resp /\
    v3.CheckResponse.Status resp = statusOf code.Code_PERMISSION_DENIED /\
    branchesPopulated resp = 1%nat /\
    isSet (GetDeniedResponse resp) = true.
Proof.
  destruct (@shaped_branch_by_base_status _ _ _ _
              (demoEnv (healthy denyWithMetadata)) (decided denyWithMetadata)
              _ eq_refl) as (allowed & Ha & Hs & Hb).
  injection Ha as <-. eexists. split; [reflexivity|].
  split; [exact Hs|]. split; apply Hb.
Defined.

(** C6, as stated, fails: dry-run is configured and the plain decision
    [false] denies.  The returned response carries status OK, not the base
    status PERMISSION_DENIED, and the empty allow-branch. *)
Lemma dry_run_boolean_deny :
  let env := demoEnv (healthy (ABool false)) in
  IsAllowed env (decided (ABool false)) = inl false /\
  fst (check env (demoConfig true) background "/a")
  = (Some forcedAllow,
     StopFinalize [("path", AString "/a")] (decided (ABool false)) None None,
     None) /\
  forcedAllow <> statusOnly code.Code_PERMISSION_DENIED /\
  ~ (forall (Body Files Request AstValue Transaction : Type)
            (env : Collaborators Files Request AstValue Transaction)
            (cfg : Config Body Files) (ctx : Context) (req : Request)
            resp input result err evalErr returned t,
        check env cfg ctx req
        = ((Some resp, StopFinalize input result err evalErr, returned), t) ->
        isMapping (Decision result) = false ->
        exists allowed,
          IsAllowed env result = inl allowed /\
          resp = statusOnly (baseStatus allowed)).
Proof.
  cbv zeta. repeat (split; [reflexivity|]). split; [discriminate|].
  intros H.
  destruct (H _ _ _ _ _ (demoEnv (healthy (ABool false))) (demoConfig true)
              background "/a" _ _ _ _ _ _ _ eq_refl eq_refl)
    as (allowed & Ha & Hr).
  injection Ha as <-. discriminate.
Qed.

Lemma non_mapping_status_only_witness :
  fst (fst (fst (check (demoEnv (healthy (ABool false))) (demoConfig false)
                       background "/a")))
  = Some (statusOnly code.Code_PERMISSION_DENIED).
Proof.
  destruct (@non_mapping_status_only _ _ _ _ _
              (demoEnv (healthy (ABool false))) (demoConfig false)
              background "/a" _ _ _ _ _ _ _ eq_refl eq_refl)
    as (allowed & Ha & _ & Hr).
  injection Ha as <-. exact (f_equal Some Hr).
Defined.

Lemma dry_run_keeps_dynamic_metadata_witness :
  exists r,
    fst (fst (Check (demoEnv (sinkDown denyWithMetadata)) (demoConfig true)
                    background "/a")) = Some r /\
    v3.CheckResponse.DynamicMetadata r = Some [("team", AString "payments")].
Proof.
  destruct (@dry_run_keeps_dynamic_metadata _ _ _ _ _
              (demoEnv (sinkDown denyWithMetadata)) (demoConfig true)
              background "/a" _ _ _ _ _ _ _ _ code.Code_PERMISSION_DENIED
              eq_refl eq_refl eq_refl eq_refl)
    as (_ & _ & r & Hr & Hm & _); [discriminate|].
  exists r. split; [exact Hr|exact Hm].
Defined.

Lemma v2Response_translation_witness :
  exists respV2,
    v2Response {| v3.CheckResponse.Status := statusOf code.Code_OK;
                  v3.CheckResponse.HttpResponse :=
                    Some (v3.CheckResponse_OkResponse
                            (Some {| v3.OkHttpResponse.Headers :=
                                       [demoHeader "x-policy" "demo"];
                                     v3.OkHttpResponse.HeadersToRemove := ["x-internal"];
                                     v3.OkHttpResponse.ResponseHeadersToAdd :=
                                       [demoHeader "x-checked" "yes"] |}));
                  v3.CheckResponse.DynamicMetadata := None |}
    = Some respV2 /\
    v2.CheckResponse.Status respV2 = statusOf code.Code_OK /\
    exists hs,
      v2.CheckResponse.HttpResponse respV2
      = Some (v2.CheckResponse_OkResponse (Some {| v2.OkHttpResponse.Headers := hs |})) /\
      keyValuesV2 hs = [Some ("x-policy", "demo")].
Proof.
  destruct (@v2Response_translation
              {| v3.CheckResponse.Status := statusOf code.Code_OK;
                 v3.CheckResponse.HttpResponse :=
                   Some (v3.CheckResponse_OkResponse
                           (Some {| v3.OkHttpResponse.Headers :=
                                      [demoHeader "x-policy" "demo"];
                                    v3.OkHttpResponse.HeadersToRemove := ["x-internal"];
                                    v3.OkHttpResponse.ResponseHeadersToAdd :=
                                      [demoHeader "x-checked" "yes"] |}));
                 v3.CheckResponse.DynamicMetadata := None |} eq_refl)
    as (respV2 & Hr & Hs & hs & Hh & Hkv & _).
  exists respV2. split; [exact Hr|]. split; [exact Hs|].
  exists hs. split; [exact Hh|exact Hkv].
Defined.

Lemma Validate_entry_point_witness :
  demoValidate "{path: foo/bar, query: data.foo.bar}" = inr invalidConfig /\
  (exists cfg',
      demoValidate "{}" = inl cfg' /\ Path cfg' = defaultPath /\
      parsedQuery cfg' = Some "data.envoy.authz.allow") /\
  (exists c cQ,
      demoValidate "{path: foo/bar}" = inl c /\
      demoValidate "{query: data.foo.bar}" = inl cQ /\
      parsedQuery c = parsedQuery cQ /\ parsedQuery c = Some "data.foo.bar").
Proof.
  pose proof (@Validate_entry_point _ _ demoUnmarshal demoParseBody
                demoReadProtoSet (fun s => s)) as H.
  split; [|split].
  - destruct (H "{path: foo/bar, query: data.foo.bar}" _ eq_refl) as (Hboth & _).
    apply Hboth; discriminate.
  - destruct (H "{}" _ eq_refl) as (_ & Hnone & _).
    destruct (Hnone eq_refl eq_refl) as (_ & Hcfg).
    eexists. split; [reflexivity|].
    destruct (Hcfg _ eq_refl) as (HP & q & Hq & Hpq).
    injection Hq as <-. split; [exact HP|exact Hpq].
  - destruct (H "{path: foo/bar}" _ eq_refl) as (_ & _ & Hpath).
    do 2 eexists. split; [reflexivity|]. split; [reflexivity|].
    destruct (Hpath eq_refl eq_refl "{query: data.foo.bar}" _ eq_refl eq_refl eq_refl
                _ _ eq_refl eq_refl) as (Heq & q & Hq & Hpq).
    injection Hq as <-. split; [exact Heq|exact Hpq].
Defined.

(* ================================================================== *)
(** * Part III. Further properties of the code *)
(* ================================================================== *)

(** ** Path resolution *)

(** X1. Resolution distributes over the slash: the reference of [a/b] is
    the reference of [a] followed by the reference of [b], whatever [a] and
    [b] are (empty, with slashes of their own); so does the reference under
    the root document. *)
Theorem stringPathToRef_concatenates (a b : string) :
  stringPathToRef (a ++ "/" ++ b) = (stringPathToRef a ++ stringPathToRef b)%list /\
  stringPathToDataRef (a ++ "/" ++ b)
  = (stringPathToDataRef a ++ stringPathToRef b)%list.
Proof.
  assert (H : stringPathToRef (a ++ "/" ++ b)
              = (stringPathToRef a ++ stringPathToRef b)%list).
  { rewrite !stringPathToRef_segments. cbn [append].
    now rewrite Split_app, filter_app, map_app. }
  split; [exact H|].
  unfold stringPathToDataRef. now rewrite H, app_assoc.
Qed.

Lemma Split_segments_without_separator (s : string) (sep : ascii) :
  Forall (fun x => ast.allBytes (fun c => negb (Ascii.eqb c sep)) x = true)
         (strings.Split s sep).
Proof.
  induction s as [|c s IH]; cbn.
  - constructor; [reflexivity|constructor].
  - destruct (Ascii.eqb c sep) eqn:E.
    + constructor; [reflexivity|exact IH].
    + destruct (strings.Split s sep) as [|x xs]; cbn.
      * constructor; [cbn; now rewrite E|constructor].
      * inversion IH as [|? ? Hx Hxs]; subst.
        constructor; [cbn; now rewrite E, Hx|exact Hxs].
Qed.

Lemma Atoi_in_range (x : string) (i : Z) :
  strconv.Atoi x = Some i -> strconv.minInt <= i <= strconv.maxInt.
Proof.
  unfold strconv.Atoi. destruct x as [|c rest]; [discriminate|].
  destruct (if Ascii.eqb c "-" || Ascii.eqb c "+" then rest else String c rest);
    [discriminate|].
  destruct (strconv.digits 0 _) as [n|]; [|discriminate].
  destruct (_ && _) eqn:E; [|discriminate].
  intros [= <-]. apply andb_true_iff in E as [E1 E2].
  apply Z.leb_le in E1. apply Z.leb_le in E2. split; assumption.
Qed.

(** X2. What a resolved path holds: never a variable; every string key is
    non-empty, holds no slash and is not the text of an [int]; every integer
    index lies within [int].  The reference has at most one term per
    segment. *)
Theorem stringPathToRef_terms (s : string) :
  forallb resolvedTerm (stringPathToRef s) = true /\
  (length (stringPathToRef s) <= length (strings.Split s "/"))%nat.
Proof.
  rewrite stringPathToRef_segments. split.
  - pose proof (Split_segments_without_separator s "/") as H.
    induction H as [|x xs Hx Hxs IH]; [reflexivity|].
    cbn [filter]. unfold nonEmpty at 1.
    destruct (String.eqb x "") eqn:E; cbn [negb]; [exact IH|].
    cbn [map forallb]. rewrite IH, andb_true_r.
    unfold segmentTerm. destruct (strconv.Atoi x) as [i|] eqn:EA;
      cbn [resolvedTerm].
    + apply Atoi_in_range in EA as [H1 H2]. apply andb_true_iff.
      split; now apply Z.leb_le.
    + now rewrite E, Hx, EA.
  - rewrite length_map. apply filter_length_le.
Qed.

Lemma head_of_identifier (c : ascii) :
  ast.isAlpha c || Ascii.eqb c "_" = true ->
  Ascii.eqb c "-" = false /\ Ascii.eqb c "+" = false /\
  strconv.isDigit c = false /\ Ascii.eqb c "/" = false.
Proof.
  destruct c as [[] [] [] [] [] [] [] []]; vm_compute; intros H;
    try discriminate; repeat split.
Qed.

Lemma word_byte_is_no_slash (c : ascii) :
  ast.isWordByte c = true -> negb (Ascii.eqb c "/") = true.
Proof.
  destruct c as [[] [] [] [] [] [] [] []]; vm_compute; intros H;
    try discriminate; reflexivity.
Qed.

Lemma word_bytes_hold_no_slash (s : string) :
  ast.allBytes ast.isWordByte s = true ->
  ast.allBytes (fun c => negb (Ascii.eqb c "/")) s = true.
Proof.
  induction s as [|c s IH]; cbn; [reflexivity|].
  intros H. apply andb_true_iff in H as [Hc Hs].
  now rewrite (word_byte_is_no_slash _ Hc), IH.
Qed.

(** An identifier is a non-empty segment without a slash that [Atoi]
    rejects. *)
Lemma plainKey_segment (x : string) :
  plainKey x = true ->
  nonEmpty x = true /\ strconv.Atoi x = None /\
  ast.allBytes (fun c => negb (Ascii.eqb c "/")) x = true.
Proof.
  unfold plainKey, ast.varRegexp. destruct x as [|c s]; [discriminate|].
  intros H. apply andb_true_iff in H as [H _].
  apply andb_true_iff in H as [Hc Hs].
  destruct (head_of_identifier _ Hc) as (Hm & Hp & Hd & Hsl).
  split; [reflexivity|]. split.
  - unfold strconv.Atoi. rewrite Hm, Hp. cbn [orb strconv.digits].
    now rewrite Hd.
  - cbn. rewrite Hsl. cbn. now apply word_bytes_hold_no_slash.
Qed.

Lemma Split_concat (segs : list string) :
  segs <> [] ->
  Forall (fun x => ast.allBytes (fun c => negb (Ascii.eqb c "/")) x = true) segs ->
  strings.Split (String.concat "/" segs) "/" = segs.
Proof.
  induction segs as [|x [|y rest] IH]; [congruence| |]; intros _ H.
  - inversion H; subst. now apply Split_without_separator.
  - inversion H as [|? ? Hx Hrest]; subst.
    change (String.concat "/" (x :: y :: rest))
      with (x ++ String "/" (String.concat "/" (y :: rest))).
    rewrite Split_app, IH by (congruence || assumption).
    now rewrite Split_without_separator.
Qed.

(** X3. A path made of identifiers that are no keywords resolves to the
    root document followed by one string key per identifier, and is printed
    as the dotted query [data.k1.k2...]: this is the text validation hands
    to the parser for such a path. *)
Theorem plain_path_is_dotted_query (quote : string -> string)
  (segs : list string) :
  forallb plainKey segs = true ->
  stringPathToDataRef (String.concat "/" segs)
  = ast.DefaultRootDocument :: map ast.StringTerm segs /\
  refString quote (stringPathToDataRef (String.concat "/" segs))
  = "data" ++ String.concat "" (map (fun x => "." ++ x) segs).
Proof.
  intros H.
  assert (Hall : Forall (fun x => plainKey x = true) segs)
    by (now apply Forall_forall, forallb_forall).
  assert (Href : stringPathToRef (String.concat "/" segs) = map ast.StringTerm segs).
  { destruct segs as [|x rest]; [reflexivity|].
    rewrite stringPathToRef_segments, Split_concat; [|discriminate|].
    - clear H. induction Hall as [|y ys Hy Hys IH]; [reflexivity|].
      destruct (plainKey_segment _ Hy) as (Hn & Ha & _).
      cbn [filter]. rewrite Hn. cbn [map]. unfold segmentTerm at 1.
      now rewrite Ha, IH.
    - eapply Forall_impl; [|exact Hall].
      intros y Hy. now destruct (plainKey_segment _ Hy) as (_ & _ & Hs). }
  unfold stringPathToDataRef. rewrite Href. split; [reflexivity|].
  cbn [app refString termString ast.DefaultRootDocument]. f_equal.
  rewrite map_map. f_equal. clear H Href.
  induction Hall as [|y ys Hy Hys IH]; [reflexivity|].
  cbn [map]. rewrite IH. f_equal. unfold refElemString.
  unfold plainKey in Hy. now rewrite Hy.
Qed.

Lemma plain_path_is_dotted_query_witness :
  refString (fun s => s) (stringPathToDataRef (String.concat "/" ["envoy"; "authz"; "allow"]))
  = "data" ++ String.concat "" (map (fun x => "." ++ x) ["envoy"; "authz"; "allow"]).
Proof.
  exact (proj2 (@plain_path_is_dotted_query (fun s => s) ["envoy"; "authz"; "allow"]
                  eq_refl)).
Defined.

(** ** Configuration *)

Section ValidateFacts.

Variables Body Files : Type.
Variable Unmarshal : string -> Config Body Files -> Result (Config Body Files).
Variable ParseBody : string -> Result Body.
Variable ReadProtoSet : string -> Result Files.
Variable quote : string -> string.

Local Abbreviation validate := (Validate Unmarshal ParseBody ReadProtoSet quote).
Local Abbreviation resolve := (resolveEntryPoint ParseBody ReadProtoSet quote).

Lemma eqb_empty (s : string) : s = "" \/ s <> "".
Proof. destruct s; [now left|right; discriminate]. Qed.

(** What a successful resolution yields, field by field. *)
Lemma resolve_success (cfg cfg' : Config Body Files) :
  resolve cfg = inl cfg' ->
  exists q,
    ParseBody (entryPointText quote cfg) = inl q /\
    parsedQuery cfg' = Some q /\
    Query cfg' = Query cfg /\
    Path cfg' = (if String.eqb (Query cfg) "" && String.eqb (Path cfg) ""
                 then defaultPath else Path cfg) /\
    Addr cfg' = Addr cfg /\ DryRun cfg' = DryRun cfg /\
    EnableReflection cfg' = EnableReflection cfg /\
    ProtoDescriptor cfg' = ProtoDescriptor cfg /\
    GRPCMaxRecvMsgSize cfg' = GRPCMaxRecvMsgSize cfg /\
    GRPCMaxSendMsgSize cfg' = GRPCMaxSendMsgSize cfg /\
    SkipRequestBodyParse cfg' = SkipRequestBodyParse cfg /\
    EnablePerformanceMetrics cfg' = EnablePerformanceMetrics cfg /\
    (if String.eqb (ProtoDescriptor cfg) "" then protoSet cfg' = protoSet cfg
     else exists ps, ReadProtoSet (ProtoDescriptor cfg) = inl ps
                     /\ protoSet cfg' = Some ps).
Proof.
  unfold resolveEntryPoint, entryPointText.
  destruct (String.eqb (Query cfg) "") eqn:EQ; cbn [negb andb].
  - destruct (String.eqb (Path cfg) "") eqn:EP;
      (destruct (ParseBody _) as [q|e]; [|discriminate];
       cbn [setParsedQuery setPath ProtoDescriptor];
       destruct (String.eqb (ProtoDescriptor cfg) "") eqn:ED; cbn [negb];
       [intros [= <-]; exists q; cbn; rewrite ?EQ; auto 20
       |destruct (ReadProtoSet (ProtoDescriptor cfg)) as [ps|e] eqn:ER;
        [|discriminate]; intros [= <-]; exists q; cbn; rewrite ?EQ; eauto 20]).
  - destruct (ParseBody _) as [q|e]; [|discriminate].
    cbn [setParsedQuery ProtoDescriptor].
    destruct (String.eqb (ProtoDescriptor cfg) "") eqn:ED; cbn [negb].
    + intros [= <-]. exists q. cbn. auto 20.
    + destruct (ReadProtoSet (ProtoDescriptor cfg)) as [ps|e] eqn:ER;
        [|discriminate].
      intros [= <-]. exists q. cbn. eauto 20.
Qed.

Lemma validate_success (bs : string) (cfg' : Config Body Files) :
  validate bs = inl cfg' ->
  exists cfg,
    Unmarshal bs (defaultConfig Body Files) = inl cfg /\
    (Path cfg = "" \/ Query cfg = "") /\ resolve cfg = inl cfg'.
Proof.
  unfold Validate.
  destruct (Unmarshal bs (defaultConfig Body Files)) as [cfg|e]; [|discriminate].
  destruct (String.eqb (Path cfg) "") eqn:EP;
    destruct (String.eqb (Query cfg) "") eqn:EQ; cbn [negb andb];
    try discriminate; intros H; exists cfg;
    (split; [reflexivity|]); (split; [|exact H]).
  all: try (left; now apply String.eqb_eq).
  right; now apply String.eqb_eq.
Qed.

(** A configuration that already holds the parse of its entry point (and
    its descriptor set) resolves to itself. *)
Lemma resolve_fixed (cfg : Config Body Files) (q : Body) :
  Query cfg <> "" \/ Path cfg <> "" ->
  ParseBody (entryPointText quote cfg) = inl q ->
  parsedQuery cfg = Some q ->
  (if String.eqb (ProtoDescriptor cfg) "" then True
   else exists ps, ReadProtoSet (ProtoDescriptor cfg) = inl ps
                   /\ protoSet cfg = Some ps) ->
  resolve cfg = inl cfg.
Proof.
  destruct cfg as [addr query path dry refl pq pd ps rcv snd skip perf].
  unfold resolveEntryPoint, entryPointText.
  cbn [Query Path ProtoDescriptor parsedQuery protoSet].
  intros Hone Hparse -> Hpd.
  destruct (String.eqb query "") eqn:EQ; cbn [negb] in *.
  - apply String.eqb_eq in EQ. subst query.
    destruct Hone as [Hq|Hp]; [congruence|].
    apply String.eqb_neq in Hp. rewrite Hp in *.
    cbn [Path]. rewrite Hparse. cbn [setParsedQuery ProtoDescriptor].
    destruct (String.eqb pd "") eqn:ED; cbn [negb]; [reflexivity|].
    destruct Hpd as (ps' & -> & ->). reflexivity.
  - rewrite Hparse. cbn [setParsedQuery ProtoDescriptor].
    destruct (String.eqb pd "") eqn:ED; cbn [negb]; [reflexivity|].
    destruct Hpd as (ps' & -> & ->). reflexivity.
Qed.

(** X4. A validated configuration names exactly one entry point: either its
    query is set and its path empty, or its path is set and its query empty;
    it holds the parse of that entry point's text; and resolving it again
    changes nothing. *)
Theorem Validate_one_entry_point (bs : string) (cfg' : Config Body Files) :
  validate bs = inl cfg' ->
  ((Query cfg' <> "" /\ Path cfg' = "") \/ (Query cfg' = "" /\ Path cfg' <> "")) /\
  (exists q, ParseBody (entryPointText quote cfg') = inl q
             /\ parsedQuery cfg' = Some q) /\
  resolve cfg' = inl cfg'.
Proof.
  intros H. destruct (validate_success _ H) as (cfg & _ & Hone & Hres).
  destruct (resolve_success _ Hres)
    as (q & Hparse & Hpq & HQ & HP & _ & _ & _ & HPD & _ & _ & _ & _ & Hps).
  assert (Hxor : (Query cfg' <> "" /\ Path cfg' = "")
                 \/ (Query cfg' = "" /\ Path cfg' <> "")).
  { rewrite HQ, HP. destruct (String.eqb (Query cfg) "") eqn:EQ; cbn [andb].
    - apply String.eqb_eq in EQ. right. split; [exact EQ|].
      destruct (String.eqb (Path cfg) "") eqn:EP; [discriminate|].
      now apply String.eqb_neq.
    - apply String.eqb_neq in EQ. left. split; [exact EQ|].
      destruct Hone as [Hp|Hq]; [exact Hp|contradiction]. }
  assert (Htext : entryPointText quote cfg' = entryPointText quote cfg).
  { unfold entryPointText. rewrite HQ, HP.
    destruct (String.eqb (Query cfg) "") eqn:EQ; cbn [negb andb]; [|reflexivity].
    destruct (String.eqb (Path cfg) "") eqn:EP; [reflexivity|].
    now rewrite EP. }
  rewrite <- Htext in Hparse.
  split; [exact Hxor|]. split; [eauto|].
  apply resolve_fixed with (q := q); auto.
  - destruct Hxor as [[Hq _]|[_ Hp]]; auto.
  - rewrite HPD. destruct (String.eqb (ProtoDescriptor cfg) ""); auto.
Qed.

(** X5. Validation keeps what was decoded: of the decoded configuration it
    changes the path (set to the built-in entry point when neither path nor
    query was given), the parsed query and the descriptor set, and nothing
    else.  The descriptor set is loaded exactly when a descriptor path is
    configured; otherwise it is left as decoded. *)
Theorem Validate_keeps_fields (bs : string) (cfg' : Config Body Files) :
  validate bs = inl cfg' ->
  exists cfg,
    Unmarshal bs (defaultConfig Body Files) = inl cfg /\
    Addr cfg' = Addr cfg /\ Query cfg' = Query cfg /\
    DryRun cfg' = DryRun cfg /\
    EnableReflection cfg' = EnableReflection cfg /\
    ProtoDescriptor cfg' = ProtoDescriptor cfg /\
    GRPCMaxRecvMsgSize cfg' = GRPCMaxRecvMsgSize cfg /\
    GRPCMaxSendMsgSize cfg' = GRPCMaxSendMsgSize cfg /\
    SkipRequestBodyParse cfg' = SkipRequestBodyParse cfg /\
    EnablePerformanceMetrics cfg' = EnablePerformanceMetrics cfg /\
    Path cfg' = (if String.eqb (Query cfg) "" && String.eqb (Path cfg) ""
                 then defaultPath else Path cfg) /\
    (if String.eqb (ProtoDescriptor cfg) "" then protoSet cfg' = protoSet cfg
     else exists ps, ReadProtoSet (ProtoDescriptor cfg) = inl ps
                     /\ protoSet cfg' = Some ps).
Proof.
  intros H. destruct (validate_success _ H) as (cfg & HU & _ & Hres).
  destruct (resolve_success _ Hres)
    as (q & _ & _ & HQ & HP & HA & HD & HR & HPD & Hrcv & Hsnd & Hskip & Hperf & Hps).
  exists cfg. repeat (split; [assumption|]). exact Hps.
Qed.

(** X6. Where a validation error comes from: it is the decoder's error, or
    the fixed message for a configuration that sets both path and query, or
    the parser's error on the entry point's text, or the descriptor loader's
    error; each is passed on unchanged. *)
Theorem Validate_error_origin (bs : string) (e : error) :
  validate bs = inr e ->
  Unmarshal bs (defaultConfig Body Files) = inr e \/
  exists cfg,
    Unmarshal bs (defaultConfig Body Files) = inl cfg /\
    ((Path cfg <> "" /\ Query cfg <> "" /\ e = invalidConfig) \/
     ParseBody (entryPointText quote cfg) = inr e \/
     (ProtoDescriptor cfg <> "" /\ ReadProtoSet (ProtoDescriptor cfg) = inr e)).
Proof.
  unfold Validate.
  destruct (Unmarshal bs (defaultConfig Body Files)) as [cfg|e0];
    [|intros [= <-]; now left].
  intros H. right. exists cfg. split; [reflexivity|]. revert H.
  destruct (String.eqb (Path cfg) "") eqn:EP;
    destruct (String.eqb (Query cfg) "") eqn:EQ; cbn [negb andb].
  4: { intros [= <-]. left. apply String.eqb_neq in EP, EQ. auto. }
  all: unfold resolveEntryPoint, entryPointText; rewrite EQ, ?EP; cbn [negb];
    cbn [Path setPath];
    (destruct (ParseBody _) as [q|e0]; [|intros [= <-]; right; left; reflexivity]);
    cbn [setParsedQuery setPath ProtoDescriptor];
    (destruct (String.eqb (ProtoDescriptor cfg) "") eqn:ED; cbn [negb];
     [discriminate|]);
    (destruct (ReadProtoSet (ProtoDescriptor cfg)) as [ps|e0]; [discriminate|]);
    intros [= <-]; right; right; split; [now apply String.eqb_neq|reflexivity].
Qed.

End ValidateFacts.

Lemma Validate_one_entry_point_witness :
  exists cfg',
    demoValidate "{query: data.foo.bar}" = inl cfg' /\
    Query cfg' = "data.foo.bar" /\ Path cfg' = "" /\
    resolveEntryPoint demoParseBody demoReadProtoSet (fun s => s) cfg' = inl cfg'.
Proof.
  eexists. split; [reflexivity|].
  destruct (@Validate_one_entry_point _ _ demoUnmarshal demoParseBody
              demoReadProtoSet (fun s => s) "{query: data.foo.bar}" _ eq_refl)
    as (_ & _ & Hfix).
  split; [reflexivity|]. split; [reflexivity|exact Hfix].
Defined.

Lemma Validate_keeps_fields_witness :
  exists cfg',
    demoValidate "{}" = inl cfg' /\
    Addr cfg' = ":9191" /\ Path cfg' = "envoy/authz/allow" /\
    GRPCMaxRecvMsgSize cfg' = 4194304 /\ protoSet cfg' = None.
Proof.
  destruct (@Validate_keeps_fields _ _ demoUnmarshal demoParseBody
              demoReadProtoSet (fun s => s) "{}" _ eq_refl)
    as (cfg & HU & HA & _ & _ & _ & _ & Hrcv & _ & _ & _ & HP & Hps).
  injection HU as <-. eexists. split; [reflexivity|].
  split; [exact HA|]. split; [exact HP|]. split; [exact Hrcv|exact Hps].
Defined.

Lemma Validate_error_origin_witness :
  demoUnmarshal "{path: foo/bar, query: data.foo.bar}" (defaultConfig string unit)
  <> inr invalidConfig /\
  demoUnmarshal "not a document" (defaultConfig string unit)
  = inr "cannot decode the configuration".
Proof.
  split.
  - destruct (@Validate_error_origin _ _ demoUnmarshal demoParseBody
                demoReadProtoSet (fun s => s)
                "{path: foo/bar, query: data.foo.bar}" invalidConfig eq_refl)
      as [H|(cfg & HU & _)]; [discriminate H|].
    rewrite HU. discriminate.
  - destruct (@Validate_error_origin _ _ demoUnmarshal demoParseBody
                demoReadProtoSet (fun s => s)
                "not a document" "cannot decode the configuration" eq_refl)
      as [H|(cfg & HU & _)]; [exact H|discriminate HU].
Defined.

(** ** The pipeline, call by call *)

(** Case analysis on the next collaborator call of the goal, through the
    whole of a call: [check], shaping, the closure and [log]. *)
Ltac call_step :=
  match goal with
  | |- context [match ?x with _ => _ end] =>
      lazymatch x with
      | NewEvalResult _ => destruct x eqn:?
      | GetTxn _ _ _ => destruct x eqn:?
      | ctxErr _ => destruct x eqn:?
      | RequestToInput _ _ _ _ => destruct x as [? [?|]] eqn:?
      | InterfaceToValue _ _ => destruct x eqn:?
      | Eval _ _ _ _ => destruct x as [? [?|]] eqn:?
      | IsAllowed _ _ => destruct x as [[|]|] eqn:?
      | isMapping _ => destruct x eqn:?
      | GetResponseEnvoyHeaderValueOptions _ _ => destruct x eqn:?
      | GetDynamicMetadata _ _ => destruct x eqn:?
      | GetRequestHTTPHeadersToRemove _ _ => destruct x eqn:?
      | GetResponseHTTPHeadersToAdd _ _ => destruct x eqn:?
      | GetResponseBody _ _ => destruct x eqn:?
      | GetResponseEnvoyHTTPStatus _ _ => destruct x eqn:?
      | EnablePerformanceMetrics _ => destruct x eqn:?
      | DryRun _ => destruct x eqn:?
      | NDBuiltinCache _ => destruct x eqn:?
      | JSON _ _ => destruct x eqn:?
      | LogDecision _ _ _ _ => destruct x eqn:?
      end
  end.

Ltac unfold_call :=
  unfold Check, check, evaluate, respond, shape, dryRunOverride, runStop, log,
    override, bind, call, ret.

Section CallFacts.

Variables Body Files Request AstValue Transaction : Type.
Variable env : Collaborators Files Request AstValue Transaction.
Variable cfg : Config Body Files.

Local Abbreviation Ev := (Event AstValue Transaction).

Lemma configured_or_empty (s : string) :
  (if negb (String.eqb s "") then s else "") = s.
Proof. destruct s; reflexivity. Qed.

(** X7. What an audit-log entry carries: the configured query and path, the
    input document as the input builder left it (the empty document when
    the deadline had expired before it ran), also when building the input
    failed, and the converted builtin cache of the result when it has one. *)
Theorem audit_entry_contents (ctx : Context) (req : Request)
  (info : server.Info) (r : EvalResult AstValue Transaction)
  (e ret : option error) :
  In (ELogDecision info r e ret) (snd (Check env cfg ctx req)) ->
  server.Query info = Query cfg /\ server.Path info = Path cfg /\
  server.Input info
  = (if isSet (ctxErr ctx) then []
     else fst (RequestToInput env req (protoSet cfg) (SkipRequestBodyParse cfg))) /\
  server.NDBuiltinCache info = convertedCache env r.
Proof.
  unfold_call. rewrite !configured_or_empty.
  repeat (call_step; cbn);
    intros H; repeat (destruct H as [H|H]; try discriminate H);
    try contradiction;
    injection H as <- <- <- <-; unfold convertedCache; cbn;
    repeat match goal with
           | E : NDBuiltinCache _ = _ |- _ => rewrite E
           | E : JSON _ _ = _ |- _ => rewrite E
           end; auto.
Qed.


(** X9. The latency metric is observed at most once per call, and exactly
    when performance metrics are enabled and [check] produced a response:
    never on a call that ends in an error. *)
Theorem latency_metric_observed (ctx : Context) (req : Request) :
  occurrences isObserve (snd (Check env cfg ctx req))
  = (if EnablePerformanceMetrics cfg
        && isSet (fst (fst (Check env cfg ctx req)))
     then 1 else 0)%nat /\
  occurrences isObserve (snd (CheckV2 env cfg ctx req))
  = occurrences isObserve (snd (Check env cfg ctx req)).
Proof.
  split; [|now rewrite CheckV2_trace].
  unfold_call. repeat (call_step; cbn); try reflexivity;
    now destruct (EnablePerformanceMetrics cfg).
Qed.

(** X10. Either entry point answers a response or an error, never both and
    never neither (the v2 one unless its translation panics); the engine is
    asked at most once per call. *)
Theorem response_xor_error (ctx : Context) (req : Request) :
  (let '(resp, err) := fst (Check env cfg ctx req) in
   isSet resp = negb (isSet err)) /\
  match fst (CheckV2 env cfg ctx req) with
  | Some (resp, err) => isSet resp = negb (isSet err)
  | None => True
  end /\
  (occurrences isEval (snd (Check env cfg ctx req)) <= 1)%nat.
Proof.
  split; [|split].
  - unfold_call. repeat (call_step; cbn); reflexivity.
  - rewrite CheckV2_translates_Check.
    unfold_call. repeat (call_step; cbn -[v2Response]); try reflexivity;
      match goal with
      | |- context [v2Response ?r] => destruct (v2Response r); cbn; auto
      end.
  - unfold_call. repeat (call_step; cbn); auto.
Qed.

(** X11. A call whose deadline has expired once the transaction is acquired:
    the caller gets no response and the wrapped deadline error, the engine
    is never asked, the audit sink (when reached) is handed the empty input
    and that same wrapped error, and the transaction is closed with the
    error of the emission, so without one when the entry was written. *)
Theorem expired_deadline (ctx : Context) (req : Request) (e : error) :
  ctxErr ctx = Some e ->
  acquired (snd (Check env cfg ctx req)) = true ->
  let timeout := Wrap e "check request timed out before query execution" in
  let t := snd (Check env cfg ctx req) in
  fst (Check env cfg ctx req) = (None, Some timeout) /\
  occurrences isEval t = 0%nat /\
  (forall info r le ret,
      In (ELogDecision info r le ret) t ->
      server.Input info = [] /\ le = Some timeout) /\
  closedWith t = Some (logFailure t).
Proof.
  intros Hc. unfold_call. rewrite Hc.
  repeat (call_step; cbn); intros H; try discriminate H;
    (split; [reflexivity|]); (split; [reflexivity|]);
    (split; [|reflexivity]);
    intros info r le ret' Hin;
    repeat (destruct Hin as [Hin|Hin]; try discriminate Hin);
    try contradiction; injection Hin as <- <- <- <-; auto.
Qed.

(** X12. Dry-run only rewrites denials: for a call that fails, or whose
    decision allows, both entry points answer exactly what they answer with
    dry-run off, and leave the same trace. *)
Theorem dry_run_only_rewrites_denials (ctx : Context) (req : Request) :
  (forall resp,
      fst (fst (fst (check env (setDryRun cfg false) ctx req))) = Some resp ->
      statusCode resp <> Some code.Code_PERMISSION_DENIED) ->
  Check env (setDryRun cfg true) ctx req
  = Check env (setDryRun cfg false) ctx req /\
  CheckV2 env (setDryRun cfg true) ctx req
  = CheckV2 env (setDryRun cfg false) ctx req.
Proof.
  intros H.
  assert (E : check env (setDryRun cfg true) ctx req
              = check env (setDryRun cfg false) ctx req).
  { revert H.
    unfold check, evaluate, respond, shape, dryRunOverride, bind, call, ret.
    cbn [setDryRun protoSet SkipRequestBodyParse EnablePerformanceMetrics DryRun].
    repeat (call_step; cbn); intros H; try reflexivity;
      exfalso; apply (H _ eq_refl); reflexivity. }
  unfold Check, CheckV2. now rewrite E.
Qed.

(** X13. The responses the v3 entry point returns: the status is set and is
    OK, PERMISSION_DENIED or UNKNOWN; at most one branch is populated; the
    allow branch never comes with PERMISSION_DENIED, nor the deny branch
    with OK; and with dry-run configured no caller is ever handed
    PERMISSION_DENIED or a deny branch. *)
Theorem returned_status_and_branch (ctx : Context) (req : Request)
  (resp : v3.CheckResponse.t) :
  fst (fst (Check env cfg ctx req)) = Some resp ->
  (exists c, statusCode resp = Some c /\
             (c = code.Code_OK \/ c = code.Code_PERMISSION_DENIED
              \/ c = code.Code_UNKNOWN)) /\
  (branchesPopulated resp <= 1)%nat /\
  (statusCode resp = Some code.Code_PERMISSION_DENIED ->
   GetOkResponse resp = None) /\
  (statusCode resp = Some code.Code_OK -> GetDeniedResponse resp = None) /\
  (DryRun cfg = true ->
   statusCode resp <> Some code.Code_PERMISSION_DENIED /\
   GetDeniedResponse resp = None).
Proof.
  unfold_call.
  repeat (call_step; cbn); intros H; try discriminate H;
    injection H as <-; cbn;
    (split; [eexists; split; [reflexivity|]; auto|]);
    (split; [lia|]);
    repeat split; auto; intros; discriminate.
Qed.

End CallFacts.

(** ** The v2 entry point *)

Lemma v2Response_status (r3 : v3.CheckResponse.t) (r2 : v2.CheckResponse.t) :
  v2Response r3 = Some r2 ->
  v2.CheckResponse.Status r2 = v3.CheckResponse.Status r3.
Proof.
  unfold v2Response.
  destruct (v3.CheckResponse.HttpResponse r3) as [[ok|d]|]; cbn.
  - destruct (v2Headers _); [|discriminate]. now intros [= <-].
  - destruct (v2Headers _), d as [d|]; try discriminate.
    destruct (v2Status _); [|discriminate]. now intros [= <-].
  - now intros [= <-].
Qed.

Lemma v2Headers_withoutAppend (hdrs : list (option v3.HeaderValueOption.t)) :
  v2Headers (map withoutAppend hdrs) = v2Headers hdrs.
Proof.
  induction hdrs as [|[hv|] hdrs IH]; cbn; [reflexivity| |reflexivity].
  rewrite IH. reflexivity.
Qed.

Section ShimFacts.

Variables Body Files Request AstValue Transaction : Type.
Variable env : Collaborators Files Request AstValue Transaction.
Variable cfg : Config Body Files.

(** X14. With getters that hand out set headers and a set deny status, the
    v2 entry point never panics: it makes the same collaborator calls as
    the v3 one, returns the same error, and its response is the v2
    translation of the v3 response, with the same status, the one of a
    failed audit-log emission included. *)
Theorem CheckV2_answers_translation (ctx : Context) (req : Request) :
  settledGetters env ->
  snd (CheckV2 env cfg ctx req) = snd (Check env cfg ctx req) /\
  match fst (Check env cfg ctx req) with
  | (Some r3, e) =>
      exists r2, fst (CheckV2 env cfg ctx req) = Some (Some r2, e) /\
                 v2Response r3 = Some r2 /\
                 v2.CheckResponse.Status r2 = v3.CheckResponse.Status r3
  | (None, e) => fst (CheckV2 env cfg ctx req) = Some (None, e)
  end.
Proof.
  intros Hg. split; [apply CheckV2_trace|].
  pose proof (CheckV2_no_panic cfg ctx req Hg) as Hn.
  rewrite CheckV2_translates_Check in *.
  destruct (fst (Check env cfg ctx req)) as [[r3|] e]; [|reflexivity].
  destruct (v2Response r3) as [r2|] eqn:E; [|now elim Hn].
  exists r2. split; [reflexivity|]. split; [reflexivity|].
  now apply v2Response_status.
Qed.

End ShimFacts.

Lemma v2Response_visible (respV3 : v3.CheckResponse.t) :
  v2Response (v2Visible respV3) = v2Response respV3.
Proof.
  unfold v2Response, v2Visible.
  destruct (v3.CheckResponse.HttpResponse respV3) as [[[ok|]|[d|]]|]; cbn;
    rewrite ?v2Headers_withoutAppend; reflexivity.
Qed.

(** X15. What the v2 translation forgets: the headers to remove, the
    response headers to add, the dynamic metadata and the append flag of
    every header.  Two v3 responses that differ only there translate to the
    same v2 response (or both panic). *)
Theorem v2Response_forgets (a b : v3.CheckResponse.t) :
  v2Visible a = v2Visible b -> v2Response a = v2Response b.
Proof.
  intros H. rewrite <- (v2Response_visible a), <- (v2Response_visible b).
  now rewrite H.
Qed.

(** ** Concrete calls, continued *)

Lemma audit_entry_contents_witness :
  In (ELogDecision demoEntry (decided (ABool true)) None None)
     (snd (Check (demoEnv (healthy (ABool true))) (demoConfig false)
                 background "/a")) /\
  server.Path demoEntry = "envoy/authz/allow" /\
  server.Input demoEntry = [("path", AString "/a")].
Proof.
  assert (Hin : In (ELogDecision demoEntry (decided (ABool true)) None None)
                   (snd (Check (demoEnv (healthy (ABool true)))
                               (demoConfig false) background "/a")))
    by (cbn; auto 10).
  split; [exact Hin|].
  destruct (audit_entry_contents _ _ _ _ _ _ _ _ Hin) as (_ & HP & HI & _).
  split; [exact HP|exact HI].
Defined.


Lemma expired_deadline_witness :
  fst (Check (demoEnv (healthy (ABool true))) (demoConfig false) expired "/a")
  = (None,
     Some "check request timed out before query execution: context deadline exceeded") /\
  closedWith (snd (Check (demoEnv (healthy (ABool true))) (demoConfig false)
                         expired "/a"))
  = Some None.
Proof.
  destruct (@expired_deadline _ _ _ _ _ (demoEnv (healthy (ABool true)))
              (demoConfig false) expired "/a" _ eq_refl eq_refl)
    as (H1 & _ & _ & H4).
  split; [exact H1|exact H4].
Defined.

Lemma dry_run_only_rewrites_denials_witness :
  Check (demoEnv (healthy (ABool true))) (setDryRun (demoConfig false) true)
        background "/a"
  = Check (demoEnv (healthy (ABool true))) (setDryRun (demoConfig false) false)
          background "/a".
Proof.
  apply (@dry_run_only_rewrites_denials _ _ _ _ _
           (demoEnv (healthy (ABool true))) (demoConfig false) background "/a").
  intros resp H. injection H as <-. discriminate.
Defined.

Lemma returned_status_and_branch_witness :
  exists resp,
    fst (fst (Check (demoEnv (sinkDown denyWithMetadata)) (demoConfig true)
                    background "/a")) = Some resp /\
    statusCode resp <> Some code.Code_PERMISSION_DENIED /\
    GetDeniedResponse resp = None.
Proof.
  eexists. split; [reflexivity|].
  destruct (@returned_status_and_branch _ _ _ _ _
              (demoEnv (sinkDown denyWithMetadata)) (demoConfig true)
              background "/a" _ eq_refl) as (_ & _ & _ & _ & H).
  exact (H eq_refl).
Defined.

Lemma demoEnv_settled (s : Scenario) : settledGetters (demoEnv s).
Proof. split; cbn; intros r x H; injection H as <-; reflexivity. Qed.

Lemma CheckV2_answers_translation_witness :
  exists r2,
    fst (CheckV2 (demoEnv (sinkDown denyWithMetadata)) (demoConfig false)
                 background "/a") = Some (Some r2, None) /\
    v2.CheckResponse.Status r2 = Some sinkUnknown.
Proof.
  destruct (@CheckV2_answers_translation _ _ _ _ _
              (demoEnv (sinkDown denyWithMetadata)) (demoConfig false)
              background "/a" (demoEnv_settled _)) as (_ & H).
  cbn -[CheckV2 v2Response] in H. destruct H as (r2 & H1 & _ & H3).
  exists r2. split; [exact H1|exact H3].
Defined.

Lemma v2Response_forgets_witness :
  allowPlain <> allowRich /\ v2Response allowPlain = v2Response allowRich.
Proof.
  split; [discriminate|].
  apply v2Response_forgets. reflexivity.
Defined.

(** ** The listener *)

Lemma Contains_default_scheme (addr : string) :
  Contains ("grpc://" ++ addr) "://" = true.
Proof. reflexivity. Qed.

Section ListenFacts.

Variables Body Files Listener : Type.
Variable os : Platform Listener.
Variable cfg : Config Body Files.

Lemma openListener_outcome (u : url.URL) :
  let '(opened, l, err) := openListener os u in
  statuses opened = [] /\ served opened = None /\ listenerError opened = None /\
  (l = None <-> err <> None).
Proof.
  unfold openListener.
  destruct (String.eqb (url.Scheme u) "unix").
  - destruct (HasPrefix _ _), (Listen os "unix" _); cbn;
      repeat split; congruence.
  - destruct (String.eqb (url.Scheme u) "grpc").
    + destruct (Listen os "tcp" _); cbn; repeat split; congruence.
    + cbn; repeat split; congruence.
Qed.

(** X16. The states a run of [listen] reports.  When the address does not
    parse, the run serves nothing and reports nothing.  Otherwise it reports
    OK and serves, also when no listener could be created: the error is
    logged, the server is handed the nil listener, and OK is reported all
    the same.  NOT_READY follows only when the server returns without
    error. *)
Theorem listen_reports :
  let t := listen os cfg in
  match served t with
  | None =>
      statuses t = [] /\
      exists e, t = [LParse (if negb (Contains (Addr cfg) "://")
                             then "grpc://" ++ Addr cfg else Addr cfg);
                     LError "Unable to parse url." e]
  | Some l =>
      statuses t
      = plugins.StateOK
        :: (if isSet (Serve os l) then [] else [plugins.StateNotReady]) /\
      (l = None <-> listenerError t <> None)
  end.
Proof.
  cbv zeta. unfold listen. cbn [served statuses listenerError].
  destruct (Parse os _) as [u|e]; [|cbn; eauto].
  pose proof (openListener_outcome u) as H.
  destruct (openListener os u) as [[opened l] err].
  destruct H as (Hs & Hv & Hl & Hn).
  assert (Hserved : forall rest, served (opened ++ rest) = served rest).
  { clear -Hv. induction opened as [|[] ? IH]; cbn in *; auto; discriminate. }
  assert (Hstat : forall rest, statuses (opened ++ rest) = statuses rest).
  { clear -Hs. induction opened as [|[] ? IH]; cbn in *; auto; discriminate. }
  assert (Herr : forall rest, listenerError (opened ++ rest) = listenerError rest).
  { clear -Hl. induction opened as [|[] ? IH]; cbn in *; auto.
    destruct (String.eqb msg _); [discriminate|auto]. }
  rewrite Hserved, Hstat, Herr.
  destruct err as [err|]; cbn.
  - split.
    + now destruct (Serve os l).
    + split; [discriminate|]. intros _. apply Hn. discriminate.
  - split.
    + now destruct (Serve os l).
    + rewrite Hn. destruct (Serve os l); cbn; tauto.
Qed.

Lemma openListener_calls (u : url.URL) :
  let '(opened, l, err) := openListener os u in
  opened = [] \/
  (exists address, opened = [LListen "tcp" address]) \/
  (exists name, opened = [LListen "unix" name]
                /\ HasPrefix (URLString os u) "unix://@" = true) \/
  (exists name, opened = [LRemove name; LListen "unix" name]
                /\ HasPrefix (URLString os u) "unix://@" = false).
Proof.
  unfold openListener.
  destruct (String.eqb (url.Scheme u) "unix") eqn:E.
  - apply String.eqb_eq in E. rewrite E.
    destruct (HasPrefix _ _) eqn:EP, (Listen os "unix" _); cbn; eauto 8.
  - destruct (String.eqb (url.Scheme u) "grpc").
    + destruct (Listen os "tcp" _); cbn; eauto.
    + auto.
Qed.

(** X17. What a run of [listen] touches.  The address it parses always
    carries a scheme: the configured one, or that address after [grpc://]
    when it has none.  It opens at most one socket, on the unix or the tcp
    network, and removes at most one file: the path of the unix socket it
    binds next, and never for an abstract socket. *)
Theorem listen_touches :
  let t := listen os cfg in
  (exists a rest, t = LParse a :: rest /\ Contains a "://" = true /\
                  (a = Addr cfg \/
                   Contains (Addr cfg) "://" = false /\ a = "grpc://" ++ Addr cfg) /\
                  ~ In (LParse a) rest) /\
  (length (filter isListen t) <= 1)%nat /\
  (length (filter isRemove t) <= 1)%nat /\
  (forall network address,
      In (LListen network address) t -> network = "unix" \/ network = "tcp") /\
  (forall name,
      In (LRemove name) t ->
      exists pre post u,
        t = (pre ++ LRemove name :: LListen "unix" name :: post)%list /\
        Parse os (if negb (Contains (Addr cfg) "://")
                  then "grpc://" ++ Addr cfg else Addr cfg) = inl u /\
        HasPrefix (URLString os u) "unix://@" = false).
Proof.
  cbv zeta. unfold listen.
  set (addr := if negb (Contains (Addr cfg) "://")
               then "grpc://" ++ Addr cfg else Addr cfg).
  assert (Ha : Contains addr "://" = true /\
               (addr = Addr cfg \/
                Contains (Addr cfg) "://" = false /\ addr = "grpc://" ++ Addr cfg)).
  { subst addr. destruct (Contains (Addr cfg) "://") eqn:E; cbv [negb].
    - auto.
    - split; [apply Contains_default_scheme|auto]. }
  destruct (Parse os addr) as [u|e] eqn:EP.
  - pose proof (openListener_calls u) as H.
    destruct (openListener os u) as [[opened l] err].
    destruct H as [->|[(a & ->)|[(n & -> & Hp)|(n & -> & Hp)]]];
      destruct err as [err|], (Serve os l) as [se|]; cbn;
      (split; [eexists; eexists; split; [reflexivity|];
               split; [apply Ha|]; split; [apply Ha|];
               intros Hin; cbn in Hin;
               repeat (destruct Hin as [Hin|Hin]; try discriminate Hin);
               exact Hin|]);
      (split; [lia|]); (split; [lia|]);
      (split; [intros network address Hin;
               repeat (destruct Hin as [Hin|Hin]; try discriminate Hin);
               try contradiction; injection Hin as <- <-; auto|]);
      intros name Hin;
      repeat (destruct Hin as [Hin|Hin]; try discriminate Hin);
      try contradiction; injection Hin as <-;
      exists [LParse addr]; eexists; exists u; cbn; auto.
  - cbn. split.
    + eexists; eexists. split; [reflexivity|]. split; [apply Ha|].
      split; [apply Ha|]. intros [H|[]]. discriminate H.
    + split; [lia|]. split; [lia|]. split.
      * intros network address [H|[H|[]]]; discriminate H.
      * intros name [H|[H|[]]]; discriminate H.
Qed.

End ListenFacts.

Lemma listen_reports_witness :
  served (listen (demoPlatform true) (defaultConfig string unit)) = Some None /\
  listenerError (listen (demoPlatform true) (defaultConfig string unit))
  = Some "bind: address already in use" /\
  statuses (listen (demoPlatform true) (defaultConfig string unit))
  = [plugins.StateOK; plugins.StateNotReady].
Proof.
  split; [reflexivity|]. split; [reflexivity|].
  pose proof (listen_reports (demoPlatform true) (defaultConfig string unit)) as H.
  cbv zeta in H.
  change (served (listen (demoPlatform true) (defaultConfig string unit)))
    with (Some (@None nat)) in H.
  destruct H as [H _]. exact H.
Defined.

Lemma listen_touches_witness :
  exists pre post,
    listen (demoPlatform false)
           (setAddr (defaultConfig string unit) "unix:///run/authz.sock")
    = (pre ++ LRemove "/run/authz.sock"
           :: LListen "unix" "/run/authz.sock" :: post)%list.
Proof.
  destruct (listen_touches (demoPlatform false)
              (setAddr (defaultConfig string unit) "unix:///run/authz.sock"))
    as (_ & _ & _ & _ & H).
  destruct (H "/run/authz.sock") as (pre & post & u & Ht & _).
  - cbn. auto.
  - exists pre, post. exact Ht.
Defined.
